(** * csvReport: the report pipeline of [main.py]

    A shallow embedding of [CSVReader.read], [Report.generate],
    [Report.performance] and the merge loop of [Main.run], with the
    Python values they manipulate:

    - a CSV cell is a [string] (the UTF-8 bytes of the Python [str]), a row
      is a [list string], a table is a [list (list string)];
    - a Python [float] is an IEEE-754 binary64 number, taken from the
      Standard Library's [SpecFloat] at precision 53 and [emax] 1024;
    - a raised exception is a value of [exn], and a computation that may
      raise returns a [result];
    - the [dict] of the aggregator is an association list in insertion
      order, which is the order [dict.items()] iterates in;
    - [float] and [list.sort] belong to the interpreter: [Module Report]
      and [Module Main] take them as the parameters [Builtins], and the
      statements about every valid table hold for all built-ins that are
      [lawful];
    - [Module Heap] has the same method over a heap of list and dict
      objects, with allocation and stores in place, for the statements
      about what a call does to the table it is given. *)

From Stdlib Require Import ZArith Ascii String Floats.SpecFloat DecimalString
  DecimalNat DecimalFacts.
From stdpp Require Import base tactics option list.

Local Open Scope Z_scope.

(** ** Python floats *)

Module PyFloat.

Definition float := spec_float.

Definition prec : Z := 53.
Definition emax : Z := 1024.

Definition add : float -> float -> float := SFadd prec emax.
Definition sub : float -> float -> float := SFsub prec emax.
Definition div : float -> float -> float := SFdiv prec emax.
Definition ltb : float -> float -> bool := SFltb.
Definition leb : float -> float -> bool := SFleb.

Definition zero : float := S754_zero false.

Definition abs : float -> float := SFabs.

Definition is_zero (x : float) : bool :=
  match x with S754_zero _ => true | _ => false end.

(** [float(n)] for a non-negative [int], as [float / int] converts its
    right operand. *)
Definition of_nat (n : nat) : float :=
  binary_normalize prec emax (Z.of_nat n) 0 false.

Definition is_nan (x : float) : bool :=
  match x with S754_nan => true | _ => false end.

Definition is_finite (x : float) : bool :=
  match x with S754_zero _ | S754_finite _ _ _ => true | _ => false end.

(** *** [float(str)]

    The grammar is the one of CPython's [PyFloat_FromString] restricted to
    ASCII strings: single underscores between digits are dropped, white
    space is stripped on both sides, then either a decimal literal (optional sign,
    digits with an optional point, optional exponent) or one of [inf],
    [infinity], [nan] in any letter case with an optional sign. A string
    with a byte outside ASCII is rejected here (CPython also accepts Unicode
    white space and Unicode decimal digits; the statements about every
    valid table take [float] as a parameter for that reason, see
    [Builtins]). The conversion is correctly rounded, to nearest with ties
    to even. *)

Definition is_digit (c : ascii) : bool :=
  let n := nat_of_ascii c in (48 <=? n)%nat && (n <=? 57)%nat.

Definition digit_val (c : ascii) : Z := Z.of_nat (nat_of_ascii c) - 48.

(** [Py_ISSPACE]: tab, line feed, vertical tab, form feed, carriage return
    and space. *)
Definition is_space (c : ascii) : bool :=
  let n := nat_of_ascii c in
  ((9 <=? n)%nat && (n <=? 13)%nat) || (n =? 32)%nat.

Definition is_underscore (c : ascii) : bool := Ascii.eqb c "_".

(** [_Py_string_to_number_with_underscores]: an underscore must follow a
    digit and precede a digit. *)
Fixpoint drop_underscores (prev : ascii) (s : list ascii) : option (list ascii) :=
  match s with
  | [] => if is_underscore prev then None else Some []
  | c :: s' =>
      if is_underscore c then
        if is_digit prev then drop_underscores c s' else None
      else if is_underscore prev && negb (is_digit c) then None
      else cons c <$> drop_underscores c s'
  end.

Fixpoint lstrip (s : list ascii) : list ascii :=
  match s with
  | c :: s' => if is_space c then lstrip s' else s
  | [] => []
  end.

Definition strip (s : list ascii) : list ascii :=
  rev (lstrip (rev (lstrip s))).

(** Splits off the longest prefix of decimal digits. *)
Fixpoint span_digits (s : list ascii) : list ascii * list ascii :=
  match s with
  | c :: s' =>
      if is_digit c then let '(ds, r) := span_digits s' in (c :: ds, r)
      else ([], s)
  | [] => ([], [])
  end.

Definition digits_val (ds : list ascii) : Z :=
  fold_left (fun acc c => 10 * acc + digit_val c) ds 0.

Definition split_sign (s : list ascii) : bool * list ascii :=
  match s with
  | c :: r =>
      if Ascii.eqb c "-" then (true, r)
      else if Ascii.eqb c "+" then (false, r)
      else (false, s)
  | [] => (false, [])
  end.

Definition lower (c : ascii) : ascii :=
  let n := nat_of_ascii c in
  if (65 <=? n)%nat && (n <=? 90)%nat then ascii_of_nat (n + 32) else c.

(** The value [m * 10 ^ e10] rounded to binary64. *)
Definition of_decimal (neg : bool) (m e10 : Z) : float :=
  if m =? 0 then S754_zero neg
  else if 0 <=? e10 then
    binary_normalize prec emax (cond_Zopp neg (m * 10 ^ e10)) 0 false
  else
    let '(q, e, l) := SFdiv_core_binary prec emax m 0 (10 ^ (- e10)) 0 in
    binary_round_aux prec emax neg q e l.

Definition parse_exponent (s : list ascii) : option Z :=
  match s with
  | [] => Some 0
  | c :: r =>
      if Ascii.eqb (lower c) "e" then
        let '(neg, r') := split_sign r in
        match span_digits r' with
        | ((_ :: _) as ds, []) => Some (cond_Zopp neg (digits_val ds))
        | _ => None
        end
      else None
  end.

Definition parse_decimal (neg : bool) (s : list ascii) : option float :=
  let '(ip, r1) := span_digits s in
  let '(fp, r2) :=
    match r1 with
    | c :: r => if Ascii.eqb c "." then span_digits r else ([], r1)
    | [] => ([], r1)
    end in
  match ip ++ fp with
  | [] => None
  | ds =>
      e ← parse_exponent r2;
      Some (of_decimal neg (digits_val ds) (e - Z.of_nat (length fp)))
  end.

Definition parse_inf_or_nan (neg : bool) (s : list ascii) : option float :=
  let w := string_of_list_ascii (map lower s) in
  if String.eqb w "inf" || String.eqb w "infinity" then Some (S754_infinity neg)
  else if String.eqb w "nan" then Some S754_nan
  else None.

Definition of_chars (s : list ascii) : option float :=
  s1 ← drop_underscores "000"%char s;
  let '(neg, body) := split_sign (strip s1) in
  match parse_decimal neg body with
  | Some x => Some x
  | None => parse_inf_or_nan neg body
  end.

Definition of_string (s : string) : option float :=
  of_chars (list_ascii_of_string s).

(** *** [format(x, ".2f")]

    The exact binary value is rounded to two decimals, ties to even, and
    printed in full; infinities and NaN print as words. *)

Definition round_half_even (n d : Z) : Z :=
  let q := n / d in
  match 2 * (n mod d) ?= d with
  | Lt => q
  | Gt => q + 1
  | Eq => if Z.even q then q else q + 1
  end.

(** [|x| * 100] rounded to an integer, for [|x| = m * 2 ^ e]. *)
Definition hundredths (m : positive) (e : Z) : Z :=
  if 0 <=? e then Z.pos m * 2 ^ e * 100
  else round_half_even (Z.pos m * 100) (2 ^ (- e)).

Definition dec_string (z : Z) : string :=
  NilZero.string_of_uint (N.to_uint (Z.to_N z)).

Definition digit_char (z : Z) : ascii := ascii_of_nat (Z.to_nat (48 + z)).

Definition sign_string (neg : bool) : string :=
  if neg then "-"%string else ""%string.

Definition fixed2 (neg : bool) (h : Z) : string :=
  (sign_string neg ++ dec_string (h / 100) ++
   String "." (String (digit_char (h mod 100 / 10))
                 (String (digit_char (h mod 10)) EmptyString)))%string.

Definition format_2f (x : float) : string :=
  match x with
  | S754_nan => "nan"%string
  | S754_infinity neg => (sign_string neg ++ "inf")%string
  | S754_zero neg => fixed2 neg 0
  | S754_finite neg m e => fixed2 neg (hundredths m e)
  end.

(** *** [sum]

    [sum(xs)] starts from the integer [0]; adding the first float to it
    gives [0.0 + x]. CPython up to 3.11 then adds from left to right. From
    3.12 on the remaining items go through Neumaier's compensated
    summation. The report below is stated for any summation function, and
    both are given here. *)

Definition sum_plain (xs : list float) : float :=
  fold_left add xs zero.

Definition cs_add (total : float * float) (x : float) : float * float :=
  let '(hi, lo) := total in
  let t := add hi x in
  if leb (abs x) (abs hi)
  then (t, add lo (add (sub hi t) x))
  else (t, add lo (add (sub x t) hi)).

Definition cs_to_double (total : float * float) : float :=
  let '(hi, lo) := total in
  if negb (is_zero lo) && is_finite lo then add hi lo else hi.

Definition sum_compensated (xs : list float) : float :=
  match xs with
  | [] => zero
  | x :: xs' => cs_to_double (fold_left cs_add xs' (add zero x, zero))
  end.

End PyFloat.

(** ** Exceptions and results *)

Inductive exn :=
  | ValueError (msg : string)
  (** the [ValueError] of [float(cell)]; its text quotes [repr(cell)] *)
  | FloatValueError (cell : string)
  | IndexError
  | ZeroDivisionError
  | TypeError
  | FileNotFoundError.

Definition is_ValueError (e : exn) : bool :=
  match e with ValueError _ | FloatValueError _ => true | _ => false end.

Inductive result (A : Type) :=
  | Ok (a : A)
  | Raise (e : exn).
Arguments Ok {A} a.
Arguments Raise {A} e.

#[global] Instance result_ret : MRet result := fun _ a => Ok a.
#[global] Instance result_bind : MBind result := fun _ _ f m =>
  match m with Ok a => f a | Raise e => Raise e end.

Fixpoint mapM_result {A B} (f : A -> result B) (l : list A) : result (list B) :=
  match l with
  | [] => Ok []
  | a :: l' => b ← f a; bs ← mapM_result f l'; Ok (b :: bs)
  end.

Fixpoint foldM_result {A B} (f : B -> A -> result B) (b : B) (l : list A) : result B :=
  match l with
  | [] => Ok b
  | a :: l' => b' ← f b a; foldM_result f b' l'
  end.

(** ** Tables and Python sequence operations *)

Definition Row := list string.
Definition Table := list Row.
Definition ReportResult : Type := list string * list (list string).

(** [l[i]] for [i >= 0]. *)
Definition getitem {A} (l : list A) (i : nat) : result A :=
  match l !! i with Some a => Ok a | None => Raise IndexError end.

Fixpoint index_from (x : string) (l : list string) (i : nat) : option nat :=
  match l with
  | [] => None
  | y :: l' => if String.eqb y x then Some i else index_from x l' (S i)
  end.

(** [l.index(x)]; the message quotes [x] the way [repr] quotes a plain
    word. *)
Definition index (x : string) (l : list string) : result nat :=
  match index_from x l 0 with
  | Some i => Ok i
  | None => Raise (ValueError ("'" ++ x ++ "' is not in list"))
  end.

Definition str_of_nat (n : nat) : string :=
  NilZero.string_of_uint (Nat.to_uint n).

Definition float_of (cell : string) : result PyFloat.float :=
  match PyFloat.of_string cell with
  | Some x => Ok x
  | None => Raise (FloatValueError cell)
  end.

(** [s.endswith(suffix)] *)
Definition endswith (s suffix : string) : bool :=
  let n := String.length s in
  let k := String.length suffix in
  (k <=? n)%nat && String.eqb (substring (n - k) k s) suffix.

(** *** The [dict] of observations, in insertion order *)

Definition dict := list (string * list PyFloat.float).

Definition dict_mem (k : string) (d : dict) : bool :=
  existsb (fun e => String.eqb (fst e) k) d.

(** [d[k] = v] *)
Fixpoint dict_set (k : string) (v : list PyFloat.float) (d : dict) : dict :=
  match d with
  | [] => [(k, v)]
  | (k', v') :: d' =>
      if String.eqb k' k then (k', v) :: d' else (k', v') :: dict_set k v d'
  end.

(** [d[k].append(x)]; the key is present where the source calls it. *)
Fixpoint dict_append (k : string) (x : PyFloat.float) (d : dict) : dict :=
  match d with
  | [] => []
  | (k', v') :: d' =>
      if String.eqb k' k then (k', v' ++ [x]) :: d'
      else (k', v') :: dict_append k x d'
  end.

(** *** [list.sort(key=..., reverse=True)]

    Keys are compared with [<] only. The sort is stable, and with
    [reverse=True] rows of equal key keep their original order. This
    insertion sort gives the list every such sort gives when [<] is a strict
    weak order on the keys, which it is as soon as no key is NaN. *)

Fixpoint insert_desc {A} (x : PyFloat.float * A) (l : list (PyFloat.float * A))
  : list (PyFloat.float * A) :=
  match l with
  | [] => [x]
  | y :: l' =>
      if PyFloat.ltb (fst x) (fst y) then y :: insert_desc x l' else x :: l
  end.

Definition sort_desc {A} (l : list (PyFloat.float * A)) : list (PyFloat.float * A) :=
  foldr insert_desc [] l.

Definition sort_by_key_desc {A} (key : A -> result PyFloat.float) (l : list A)
  : result (list A) :=
  keys ← mapM_result key l;
  Ok (map snd (sort_desc (zip keys l))).

(** ** [class Report] *)

Section Report.

(** The built-in [sum] on a list of floats. *)
Variable fsum : list PyFloat.float -> PyFloat.float.

(** [sum(perf) / len(perf)] *)
Definition average (perf : list PyFloat.float) : result PyFloat.float :=
  match length perf with
  | O => Raise ZeroDivisionError
  | n => Ok (PyFloat.div (fsum perf) (PyFloat.of_nat n))
  end.

Definition group_row (pos_idx perf_idx : nat) (perf_data : dict) (row : Row)
  : result dict :=
  position ← getitem row pos_idx;
  cell ← getitem row perf_idx;
  performance ← float_of cell;
  let perf_data :=
    if negb (dict_mem position perf_data) then dict_set position [] perf_data
    else perf_data in
  Ok (dict_append position performance perf_data).

Definition result_row (entry : string * list PyFloat.float) : result (list string) :=
  let '(pos, perf) := entry in
  avg ← average perf;
  Ok [pos; PyFloat.format_2f avg].

Definition sort_key (x : list string) : result PyFloat.float :=
  cell ← getitem x 1;
  float_of cell.

Definition number_rows (rows : list (list string)) : list (list string) :=
  imap (fun i row => str_of_nat (i + 1) :: row) rows.

Definition performance (data : Table) : result ReportResult :=
  headers ← getitem data 0;
  let rows := drop 1 data in
  idx ← match (pos_idx ← index "position" headers;
               perf_idx ← index "performance" headers;
               Ok (pos_idx, perf_idx)) with
        | Raise (ValueError arg) => Raise (ValueError ("Отсутствует колонка: " ++ arg))
        | r => r
        end;
  let '(pos_idx, perf_idx) := idx in
  perf_data ← foldM_result (group_row pos_idx perf_idx) [] rows;
  result ← mapM_result result_row perf_data;
  result ← sort_by_key_desc sort_key result;
  Ok (["№"; "position"; "performance"]%string, number_rows result).

(** The attributes the class body defines. *)
Inductive attribute :=
  (** a [staticmethod]: called with [data] *)
  | StaticMethod (f : Table -> result ReportResult)
  (** [generate] bound to the class: one call argument leaves its second
      parameter unfilled *)
  | BoundGenerate
  (** the docstring *)
  | Doc.

(** [getattr(cls, report_name, None)], over the names of the class body.
    The names a class inherits from [object] and [type] are not part of the
    source and are not listed; nothing below rests on a lookup of one. *)
Definition getattr (report_name : string) : option attribute :=
  if String.eqb report_name "generate" then Some BoundGenerate
  else if String.eqb report_name "performance" then Some (StaticMethod performance)
  else if String.eqb report_name "__doc__" then Some Doc
  else None.

(** [bool(method)]: functions, bound methods and a non-empty string are
    all true. *)
Definition truthy (method : attribute) : bool := true.

Definition callable (method : attribute) : bool :=
  match method with
  | StaticMethod _ | BoundGenerate => true
  | Doc => false
  end.

(** [method(data)] *)
Definition call (method : attribute) (data : Table) : result ReportResult :=
  match method with
  | StaticMethod f => f data
  | BoundGenerate | Doc => Raise TypeError
  end.

Definition generate (report_name : string) (data : Table) : result ReportResult :=
  match getattr report_name with
  | Some method =>
      if negb (truthy method) || negb (callable method) then
        Raise (ValueError ("Отчёт '" ++ report_name ++ "' не найден."))
      else call method data
  | None => Raise (ValueError ("Отчёт '" ++ report_name ++ "' не найден."))
  end.

End Report.

(** ** [class CSVReader] and [class Main] *)

(** What [open] followed by [csv.reader] gives for a path: [None] when no
    such file exists, the parsed rows when it can be read, or the exception
    opening or decoding raises. Parsing CSV syntax is outside the
    repository. *)
Definition filesystem := string -> option (result Table).

Inductive event :=
  | Open (path : string).

(** The outcome together with the file-system calls made, in order. *)
Definition read (fs : filesystem) (file_path : string) : result Table * list event :=
  if negb (endswith file_path ".csv") then
    (Raise (ValueError ("Файл должен быть в формате .csv: " ++ file_path)), [])
  else
    (match fs file_path with
     | Some r => r
     | None => Raise FileNotFoundError
     end, [Open file_path]).

(** [os.path.exists] *)
Definition path_exists (fs : filesystem) (file_path : string) : bool :=
  bool_decide (is_Some (fs file_path)).

(** The calls of [self.parser.error], which ends the process. *)
Inductive parser_error :=
  | FileMissing (file_path : string)
  | ReadFailed (file_path : string) (e : exn)
  | ReportFailed (e : exn).

Inductive outcome :=
  | Printed (headers : list string) (data : list (list string))
  | ParserError (err : parser_error)
  | Uncaught (e : exn).

(** The [for file_path in self.args.files] loop, from the accumulator
    [all_data]. *)
Fixpoint merge_files (fs : filesystem) (files : list string) (all_data : Table)
  : parser_error + Table :=
  match files with
  | [] => inr all_data
  | file_path :: files' =>
      if negb (path_exists fs file_path) then inl (FileMissing file_path)
      else
        match fst (read fs file_path) with
        | Ok data =>
            match all_data with
            | [] => merge_files fs files' data
            | _ => merge_files fs files' (all_data ++ drop 1 data)
            end
        | Raise e => inl (ReadFailed file_path e)
        end
  end.

Definition run (fsum : list PyFloat.float -> PyFloat.float)
    (fs : filesystem) (files : list string) (report : string) : outcome :=
  match merge_files fs files [] with
  | inl err => ParserError err
  | inr all_data =>
      match generate fsum report all_data with
      | Ok (headers, report_data) => Printed headers report_data
      | Raise e => if is_ValueError e then ParserError (ReportFailed e) else Uncaught e
      end
  end.

(** ** Vocabulary of the statements *)

(** The header has both columns, every data row reaches them, and every
    performance cell converts to a float. *)
Definition valid_row (pos_idx perf_idx : nat) (row : Row) : bool :=
  match row !! pos_idx, row !! perf_idx with
  | Some _, Some cell => bool_decide (is_Some (PyFloat.of_string cell))
  | _, _ => false
  end.

Definition valid_table (data : Table) : bool :=
  match data with
  | headers :: rows =>
      match index_from "position" headers 0, index_from "performance" headers 0 with
      | Some pos_idx, Some perf_idx => forallb (valid_row pos_idx perf_idx) rows
      | _, _ => false
      end
  | [] => false
  end.

(** The position cells of the data rows, in row order. *)
Definition positions (data : Table) : list string :=
  match data with
  | headers :: rows =>
      match index_from "position" headers 0 with
      | Some pos_idx => omap (fun row : Row => row !! pos_idx) rows
      | None => []
      end
  | [] => []
  end.

(** The parsed performance values of the rows of one position, in row
    order. *)
Definition observation (pos_idx perf_idx : nat) (pos : string) (row : Row)
  : option PyFloat.float :=
  p ← row !! pos_idx;
  cell ← row !! perf_idx;
  if String.eqb p pos then PyFloat.of_string cell else None.

Definition observations (data : Table) (pos : string) : list PyFloat.float :=
  match data with
  | headers :: rows =>
      match index_from "position" headers 0, index_from "performance" headers 0 with
      | Some pos_idx, Some perf_idx => omap (observation pos_idx perf_idx pos) rows
      | _, _ => []
      end
  | [] => []
  end.

(** The mean of a group as the report computes it: float sum over float
    count. *)
Definition group_mean (fsum : list PyFloat.float -> PyFloat.float)
    (data : Table) (pos : string) : PyFloat.float :=
  let obs := observations data pos in
  PyFloat.div (fsum obs) (PyFloat.of_nat (length obs)).

(** Optional minus sign, one or more digits, a point, two digits. *)
Definition is_fixed_2 (cell : string) : bool :=
  let s := list_ascii_of_string cell in
  let body :=
    match s with
    | c :: r => if Ascii.eqb c "-" then r else s
    | [] => s
    end in
  match PyFloat.span_digits body with
  | (_ :: _, [dot; a; b]) =>
      Ascii.eqb dot "." && PyFloat.is_digit a && PyFloat.is_digit b
  | _ => false
  end.

Definition sample_data : Table :=
  [["name"; "position"; "performance"];
   ["Alice"; "Backend"; "4.8"];
   ["Bob"; "Backend"; "5.0"];
   ["Charlie"; "Frontend"; "4.4"];
   ["Diana"; "Frontend"; "4.6"]]%string.

(** No keyed row is followed by one of strictly greater key. *)
Definition descending {A} (l : list (PyFloat.float * A)) : Prop :=
  ∀ i x y, l !! i = Some x → l !! S i = Some y → PyFloat.ltb x.1 y.1 = false.

(** What [perf_data] holds once the rows [done] have been read: one entry
    per position seen, carrying the observations of that position. *)
Definition grouped (pos_idx perf_idx : nat) (done : list Row) (d : dict) : Prop :=
  NoDup d.*1 ∧
  (∀ k, k ∈ d.*1 ↔ k ∈ omap (fun row : Row => row !! pos_idx) done) ∧
  (∀ k vs, (k, vs) ∈ d →
     vs = omap (observation pos_idx perf_idx k) done ∧ vs ≠ []).

(** The sort key of a row of [result], [float(x[1])], as a total function. *)
Definition key_of (x : list string) : PyFloat.float :=
  match x with
  | [_; cell] => default PyFloat.zero (PyFloat.of_string cell)
  | _ => PyFloat.zero
  end.

(** The row of [result] for the group of [pos]. *)
Definition group_row_of (fsum : list PyFloat.float -> PyFloat.float)
    (data : Table) (pos : string) : list string :=
  [pos; PyFloat.format_2f (group_mean fsum data pos)].

Definition report_header : list string := ["№"; "position"; "performance"]%string.

(** Rows in descending order of group mean: between neighbours, the mean of
    the later row's group is at most the mean of the earlier row's. *)
Definition sorted_by_group_mean (fsum : list PyFloat.float -> PyFloat.float)
    (data : Table) : Prop :=
  ∀ headers rows i r1 r2 p1 p2,
    performance fsum data = Ok (headers, rows) →
    rows !! i = Some r1 → rows !! S i = Some r2 →
    r1 !! 1%nat = Some p1 → r2 !! 1%nat = Some p2 →
    PyFloat.leb (group_mean fsum data p2) (group_mean fsum data p1) = true.

(** Every average cell is in fixed point with two decimals. *)
Definition averages_in_fixed_point (fsum : list PyFloat.float -> PyFloat.float)
    (data : Table) : Prop :=
  ∀ headers rows row cell,
    performance fsum data = Ok (headers, rows) →
    row ∈ rows → row !! 2%nat = Some cell → is_fixed_2 cell = true.

(** Two groups whose means differ and print alike. *)
Definition tie_data : Table :=
  [["position"; "performance"]; ["A"; "4.896"]; ["B"; "4.904"]]%string.

(** A group whose only observation is infinite. *)
Definition inf_data : Table :=
  [["position"; "performance"]; ["A"; "inf"]]%string.

(** Two files with the header of [sample_data]. *)
Definition two_files : filesystem := fun file_path =>
  if String.eqb file_path "a.csv" then Some (Ok (take 3 sample_data))
  else if String.eqb file_path "b.csv" then
    Some (Ok (take 1 sample_data ++ drop 3 sample_data))
  else None.

(** An empty file next to a file with a header and one row. *)
Definition empty_then_full : filesystem := fun file_path =>
  if String.eqb file_path "empty.csv" then Some (Ok [])
  else if String.eqb file_path "full.csv" then Some (Ok (take 2 sample_data))
  else None.

(** The natural number a decimal numeral spells. *)
Definition nat_of_str (s : string) : option nat :=
  Nat.of_uint <$> NilZero.uint_of_string s.

(** The errors the aggregator raises itself. *)
Definition report_error (e : exn) : Prop :=
  e = IndexError ∨ (∃ msg, e = ValueError msg) ∨ (∃ cell, e = FloatValueError cell).

(** A path [CSVReader.read] reads a table from. *)
Definition readable (fs : filesystem) (file_path : string) : Prop :=
  endswith file_path ".csv" = true ∧ ∃ data, fs file_path = Some (Ok data).



(** A file with another suffix and a file that cannot be read, next to a
    table. *)
Definition mixed_files : filesystem := fun file_path =>
  if String.eqb file_path "a.csv" then Some (Ok (take 3 sample_data))
  else if String.eqb file_path "notes.txt" then Some (Ok [["x"]%string])
  else if String.eqb file_path "gone.csv" then Some (Raise FileNotFoundError)
  else None.

#[local] Instance string_eq_dec : EqDecision string := String.string_dec.

(** The distinct values of a list, each at its first occurrence. *)
Fixpoint first_occurrences (l : list string) : list string :=
  match l with
  | [] => []
  | x :: l' => x :: filter (fun y => y ≠ x) (first_occurrences l')
  end.

(** Three positions; the second and third print the same average. *)
Definition late_tie_data : Table :=
  [["position"; "performance"];
   ["C"; "1.0"]; ["A"; "4.896"]; ["B"; "4.904"]; ["A"; "4.896"]]%string.

(** ** The report over Python's own [float] and [list.sort]

    [float] also reads Unicode decimal digits and Unicode white space, from
    tables of the interpreter, and [list.sort] on keys that include NaN
    follows the merge strategy of the interpreter. Neither is part of the
    repository, so the methods are written here over the two built-ins as
    they come; [performance] and [run] above are these methods at the ASCII
    reading of [float] and the insertion sort. *)

Record Builtins := {
  py_float : string -> option PyFloat.float;
  py_sort : forall A : Type, list (PyFloat.float * A) -> list (PyFloat.float * A)
}.
Arguments py_sort _ {A} _.

(** What the statements use of the built-ins: [float] reads a number
    printed by [format(x, ".2f")] as the decimal grammar says; [list.sort]
    returns the items it was given, orders them by the keys alone, and on
    keys without NaN is the stable descending sort. *)
Definition lawful (B : Builtins) : Prop :=
  (∀ x, py_float B (PyFloat.format_2f x) = PyFloat.of_string (PyFloat.format_2f x)) ∧
  (∀ A (l : list (PyFloat.float * A)), py_sort B l ≡ₚ l) ∧
  (∀ A (l : list (PyFloat.float * A)),
     Forall (fun e => PyFloat.is_nan e.1 = false) l → py_sort B l = sort_desc l) ∧
  (∀ A A' (f : A → A') (l : list (PyFloat.float * A)),
     py_sort B (prod_map id f <$> l) = prod_map id f <$> py_sort B l).

Definition ascii_builtins : Builtins :=
  {| py_float := PyFloat.of_string; py_sort := @sort_desc |}.

Module Report.
Section Methods.
Context (B : Builtins) (fsum : list PyFloat.float -> PyFloat.float).

Definition float_of (cell : string) : result PyFloat.float :=
  match py_float B cell with
  | Some x => Ok x
  | None => Raise (FloatValueError cell)
  end.

Definition group_row (pos_idx perf_idx : nat) (perf_data : dict) (row : Row)
  : result dict :=
  position ← getitem row pos_idx;
  cell ← getitem row perf_idx;
  performance ← float_of cell;
  let perf_data :=
    if negb (dict_mem position perf_data) then dict_set position [] perf_data
    else perf_data in
  Ok (dict_append position performance perf_data).

Definition sort_key (x : list string) : result PyFloat.float :=
  cell ← getitem x 1;
  float_of cell.

Definition sort_by_key {A} (key : A -> result PyFloat.float) (l : list A)
  : result (list A) :=
  keys ← mapM_result key l;
  Ok (map snd (py_sort B (zip keys l))).

Definition performance (data : Table) : result ReportResult :=
  headers ← getitem data 0;
  let rows := drop 1 data in
  idx ← match (pos_idx ← index "position" headers;
               perf_idx ← index "performance" headers;
               Ok (pos_idx, perf_idx)) with
        | Raise (ValueError arg) => Raise (ValueError ("Отсутствует колонка: " ++ arg))
        | r => r
        end;
  let '(pos_idx, perf_idx) := idx in
  perf_data ← foldM_result (group_row pos_idx perf_idx) [] rows;
  result ← mapM_result (result_row fsum) perf_data;
  result ← sort_by_key sort_key result;
  Ok (["№"; "position"; "performance"]%string, number_rows result).

Definition getattr (report_name : string) : option attribute :=
  if String.eqb report_name "generate" then Some BoundGenerate
  else if String.eqb report_name "performance" then Some (StaticMethod performance)
  else if String.eqb report_name "__doc__" then Some Doc
  else None.

Definition generate (report_name : string) (data : Table) : result ReportResult :=
  match getattr report_name with
  | Some method =>
      if negb (truthy method) || negb (callable method) then
        Raise (ValueError ("Отчёт '" ++ report_name ++ "' не найден."))
      else call method data
  | None => Raise (ValueError ("Отчёт '" ++ report_name ++ "' не найден."))
  end.

(** *** Vocabulary *)

Definition valid_row (pos_idx perf_idx : nat) (row : Row) : bool :=
  match row !! pos_idx, row !! perf_idx with
  | Some _, Some cell => bool_decide (is_Some (py_float B cell))
  | _, _ => false
  end.

(** The header has both columns, every data row reaches them, and [float]
    accepts every performance cell. *)
Definition valid_table (data : Table) : bool :=
  match data with
  | headers :: rows =>
      match index_from "position" headers 0, index_from "performance" headers 0 with
      | Some pos_idx, Some perf_idx => forallb (valid_row pos_idx perf_idx) rows
      | _, _ => false
      end
  | [] => false
  end.

Definition observation (pos_idx perf_idx : nat) (pos : string) (row : Row)
  : option PyFloat.float :=
  p ← row !! pos_idx;
  cell ← row !! perf_idx;
  if String.eqb p pos then py_float B cell else None.

(** The performance values of the rows of one position, in row order. *)
Definition observations (data : Table) (pos : string) : list PyFloat.float :=
  match data with
  | headers :: rows =>
      match index_from "position" headers 0, index_from "performance" headers 0 with
      | Some pos_idx, Some perf_idx => omap (observation pos_idx perf_idx pos) rows
      | _, _ => []
      end
  | [] => []
  end.

(** The mean of a group as the report computes it: float sum over float
    count. *)
Definition group_mean (data : Table) (pos : string) : PyFloat.float :=
  let obs := observations data pos in
  PyFloat.div (fsum obs) (PyFloat.of_nat (length obs)).

Definition no_nan_mean (data : Table) : bool :=
  forallb (fun pos => negb (PyFloat.is_nan (group_mean data pos))) (positions data).

Definition grouped (pos_idx perf_idx : nat) (done : list Row) (d : dict) : Prop :=
  NoDup d.*1 ∧
  (∀ k, k ∈ d.*1 ↔ k ∈ omap (fun row : Row => row !! pos_idx) done) ∧
  (∀ k vs, (k, vs) ∈ d →
     vs = omap (observation pos_idx perf_idx k) done ∧ vs ≠ []).

(** The row of [result] for the group of [pos], and its sort key. *)
Definition group_row_of (data : Table) (pos : string) : list string :=
  [pos; PyFloat.format_2f (group_mean data pos)].

Definition key_of (x : list string) : PyFloat.float :=
  match x with
  | [_; cell] => default PyFloat.zero (py_float B cell)
  | _ => PyFloat.zero
  end.

Definition keyed_row (data : Table) (pos : string) : PyFloat.float * list string :=
  (key_of (group_row_of data pos), group_row_of data pos).

(** The number a report row shows in its average column, [float(row[2])]. *)
Definition printed_average (row : list string) : option PyFloat.float :=
  cell ← row !! 2%nat; py_float B cell.

(** The report written out: one row for each position in order of first
    occurrence, sorted by descending printed average, then numbered. *)
Definition report_of (data : Table) : ReportResult :=
  (report_header,
   number_rows (sort_desc (keyed_row data <$> first_occurrences (positions data))).*2).

End Methods.
End Report.

Module Main.

Definition run (B : Builtins) (fsum : list PyFloat.float -> PyFloat.float)
    (fs : filesystem) (files : list string) (report : string) : outcome :=
  match merge_files fs files [] with
  | inl err => ParserError err
  | inr all_data =>
      match Report.generate B fsum report all_data with
      | Ok (headers, report_data) => Printed headers report_data
      | Raise e => if is_ValueError e then ParserError (ReportFailed e) else Uncaught e
      end
  end.

End Main.

(** A cell in Arabic-Indic digits, and a reading of [float] that accepts it
    next to the ASCII grammar. *)
Definition arabic_cell : string :=
  String "217" (String "164" (String "." (String "217" (String "165" ""))))%string.

Definition arabic_builtins : Builtins :=
  {| py_float := fun s =>
       if String.eqb s arabic_cell then PyFloat.of_string "4.5"
       else PyFloat.of_string s;
     py_sort := @sort_desc |}.

Definition arabic_data : Table :=
  [["position"; "performance"]%string; ["A"%string; arabic_cell]].

(** ** The report on a heap of objects

    [performance] receives a reference to a list of references to lists of
    [str], and lists and dicts can be changed in place. Here the method is
    written statement by statement over a heap of objects: every list and
    dict it builds is allocated, every [append], [d[k] = v] and [sort] is a
    store, and a loop reads the list or dict it runs over afresh at every
    step. *)

Inductive value :=
  | VStr (s : string)
  | VFloat (x : PyFloat.float)
  | VRef (a : nat).

Inductive object :=
  | OList (items : list value)
  | ODict (entries : list (string * value)).

(** The object at address [a] is the [a]-th one allocated. *)
Abbreviation heap := (list object).

Module Heap.

(** Besides the exceptions of [exn], a run can end in the [KeyError] of a
    dict lookup, or at the bound of a loop over a list that grows under
    it. *)
Inductive failure :=
  | Exception (e : exn)
  | KeyError (key : string)
  | LoopBound.

Inductive res (A : Type) :=
  | Returns (a : A)
  | Fails (f : failure).
Arguments Returns {A} a.
Arguments Fails {A} f.

Definition M (A : Type) : Type := heap -> res A * heap.

#[global] Instance M_ret : MRet M := fun _ a h => (Returns a, h).
#[global] Instance M_bind : MBind M := fun _ _ f m h =>
  match m h with
  | (Returns a, h') => f a h'
  | (Fails e, h') => (Fails e, h')
  end.

Definition fail {A} (f : failure) : M A := fun h => (Fails f, h).
Definition raise {A} (e : exn) : M A := fail (Exception e).

(** *** Objects *)

Definition alloc (o : object) : M value :=
  fun h => (Returns (VRef (length h)), h ++ [o]).

Definition load (v : value) : M object := fun h =>
  match v with
  | VRef a =>
      match h !! a with
      | Some o => (Returns o, h)
      | None => (Fails (Exception TypeError), h)
      end
  | _ => (Fails (Exception TypeError), h)
  end.

Definition store (v : value) (o : object) : M unit := fun h =>
  match v with
  | VRef a => (Returns tt, <[a := o]> h)
  | _ => (Fails (Exception TypeError), h)
  end.

Definition items (v : value) : M (list value) :=
  o ← load v;
  match o with OList xs => mret xs | ODict _ => raise TypeError end.

Definition entries (v : value) : M (list (string * value)) :=
  o ← load v;
  match o with ODict es => mret es | OList _ => raise TypeError end.

(** The key of a dict entry: the cells of a table are [str], and no other
    value is used as a key. *)
Definition str (v : value) : M string :=
  match v with VStr s => mret s | _ => raise TypeError end.

(** [float(v)] *)
Definition float_of (B : Builtins) (v : value) : M PyFloat.float :=
  match v with
  | VStr s =>
      match py_float B s with
      | Some x => mret x
      | None => raise (FloatValueError s)
      end
  | VFloat x => mret x
  | VRef _ => raise TypeError
  end.

(** *** Lists *)

(** [l[i]] *)
Definition list_getitem (l : value) (i : nat) : M value :=
  xs ← items l;
  match xs !! i with Some x => mret x | None => raise IndexError end.

(** [l[i:]], a new list *)
Definition list_slice (l : value) (i : nat) : M value :=
  xs ← items l;
  alloc (OList (drop i xs)).

Definition value_eqb (v : value) (x : string) : bool :=
  match v with VStr s => String.eqb s x | _ => false end.

Fixpoint value_index_from (x : string) (xs : list value) (i : nat) : option nat :=
  match xs with
  | [] => None
  | y :: xs' => if value_eqb y x then Some i else value_index_from x xs' (S i)
  end.

(** [l.index(x)] *)
Definition list_index (l : value) (x : string) : M nat :=
  xs ← items l;
  match value_index_from x xs 0 with
  | Some i => mret i
  | None => raise (ValueError ("'" ++ x ++ "' is not in list"))
  end.

(** [l.append(x)], in place *)
Definition list_append (l : value) (x : value) : M unit :=
  xs ← items l;
  store l (OList (xs ++ [x])).

Definition list_len (l : value) : M nat :=
  xs ← items l;
  mret (length xs).

(** *** Dicts *)

(** [k in d] *)
Definition dict_contains (d : value) (k : string) : M bool :=
  es ← entries d;
  mret (existsb (fun e : string * value => String.eqb e.1 k) es).

Fixpoint set_entry (k : string) (v : value) (es : list (string * value))
  : list (string * value) :=
  match es with
  | [] => [(k, v)]
  | (k', v') :: es' =>
      if String.eqb k' k then (k', v) :: es' else (k', v') :: set_entry k v es'
  end.

(** [d[k] = v], in place *)
Definition dict_setitem (d : value) (k : string) (v : value) : M unit :=
  es ← entries d;
  store d (ODict (set_entry k v es)).

Fixpoint get_entry (k : string) (es : list (string * value)) : option value :=
  match es with
  | [] => None
  | (k', v) :: es' => if String.eqb k' k then Some v else get_entry k es'
  end.

(** [d[k]] *)
Definition dict_getitem (d : value) (k : string) : M value :=
  es ← entries d;
  match get_entry k es with Some v => mret v | None => fail (KeyError k) end.

(** *** Loops *)

(** The body on each of [xs] in turn, from index [i]. *)
Fixpoint each {X Y} (body : nat -> X -> M Y) (i : nat) (xs : list X) : M (list Y) :=
  match xs with
  | [] => mret []
  | x :: xs' =>
      y ← body i x;
      ys ← each body (S i) xs';
      mret (y :: ys)
  end.

(** A loop over an iterator: [next i] is the item at index [i] of the
    object as it is when asked, [None] past its end. *)
Fixpoint for_each {X Y} (fuel : nat) (next : nat -> M (option X))
    (body : nat -> X -> M Y) (i : nat) : M (list Y) :=
  x ← next i;
  match x with
  | None => mret []
  | Some x =>
      match fuel with
      | O => fail LoopBound
      | S fuel' =>
          y ← body i x;
          ys ← for_each fuel' next body (S i);
          mret (y :: ys)
      end
  end.

Definition list_next (l : value) (i : nat) : M (option value) :=
  xs ← items l;
  mret (xs !! i).

Definition dict_next (d : value) (i : nat) : M (option (string * value)) :=
  es ← entries d;
  mret (es !! i).

(** [for i, x in enumerate(l)], bounded by the length of [l] at the
    start. *)
Definition for_list {Y} (l : value) (body : nat -> value -> M Y) : M (list Y) :=
  n ← list_len l;
  for_each n (list_next l) body 0.

(** [for k, v in d.items()], bounded by the size of [d] at the start. *)
Definition for_items {Y} (d : value) (body : string -> value -> M Y) : M (list Y) :=
  es ← entries d;
  for_each (length es) (dict_next d) (fun _ e => body e.1 e.2) 0.

(** [l.sort(key=key, reverse=True)], in place: the keys are computed
    first, on the items the list holds when the sort starts. *)
Definition list_sort (B : Builtins) (l : value) (key : value -> M PyFloat.float)
  : M unit :=
  xs ← items l;
  keys ← each (fun _ => key) 0 xs;
  store l (OList (map snd (py_sort B (zip keys xs)))).

(** *** [Report.performance] *)

Section Methods.
Context (B : Builtins) (fsum : list PyFloat.float -> PyFloat.float).

(** [try: ... except ValueError as e: raise ValueError(f"Отсутствует
    колонка: {e.args[0]}")] *)
Definition missing_column {A} (m : M A) : M A := fun h =>
  match m h with
  | (Fails (Exception (ValueError arg)), h') =>
      (Fails (Exception (ValueError ("Отсутствует колонка: " ++ arg))), h')
  | r => r
  end.

(** The body of [for row in rows]. *)
Definition group_row (pos_idx perf_idx : nat) (perf_data row : value) : M unit :=
  position ← list_getitem row pos_idx;
  cell ← list_getitem row perf_idx;
  performance ← float_of B cell;
  position ← str position;
  present ← dict_contains perf_data position;
  _ ← (if negb present then
         new ← alloc (OList []);
         dict_setitem perf_data position new
       else mret tt);
  perf ← dict_getitem perf_data position;
  list_append perf (VFloat performance).

Definition float_value (v : value) : M PyFloat.float :=
  match v with VFloat x => mret x | _ => raise TypeError end.

(** [[pos, f"{sum(perf) / len(perf):.2f}"]] *)
Definition result_row (pos : string) (perf : value) : M value :=
  vs ← items perf;
  xs ← each (fun _ => float_value) 0 vs;
  avg ← match length xs with
        | O => raise ZeroDivisionError
        | n => mret (PyFloat.div (fsum xs) (PyFloat.of_nat n))
        end;
  alloc (OList [VStr pos; VStr (PyFloat.format_2f avg)]).

(** [lambda x: float(x[1])] *)
Definition sort_key (x : value) : M PyFloat.float :=
  cell ← list_getitem x 1;
  float_of B cell.

(** [[str(i + 1), *row]] *)
Definition numbered_row (i : nat) (row : value) : M value :=
  xs ← items row;
  alloc (OList (VStr (str_of_nat (i + 1)) :: xs)).

Definition performance (data : value) : M (value * value) :=
  headers ← list_getitem data 0;
  rows ← list_slice data 1;
  idx ← missing_column
           (pos_idx ← list_index headers "position";
            perf_idx ← list_index headers "performance";
            mret (pos_idx, perf_idx));
  let '(pos_idx, perf_idx) := idx in
  perf_data ← alloc (ODict []);
  _ ← for_list rows (fun _ row => group_row pos_idx perf_idx perf_data row);
  result ← for_items perf_data result_row;
  result ← alloc (OList result);
  _ ← list_sort B result sort_key;
  numbered ← for_list result numbered_row;
  result ← alloc (OList numbered);
  header ← alloc (OList (VStr <$> ["№"; "position"; "performance"]%string));
  mret (header, result).

End Methods.

(** *** Tables and reports on the heap *)

(** A table as [csv.reader] leaves it: one list of [str] for each row, and
    the list of the rows. *)
Definition new_table (t : Table) : M value :=
  rows ← each (fun _ (row : Row) => alloc (OList (VStr <$> row))) 0 t;
  alloc (OList rows).

Definition read_str (v : value) : option string :=
  match v with VStr s => Some s | _ => None end.

Definition read_list (h : heap) (v : value) : option (list value) :=
  match v with
  | VRef a => match h !! a with Some (OList xs) => Some xs | _ => None end
  | _ => None
  end.

(** The list of [str] a value refers to. *)
Definition read_row (h : heap) (v : value) : option Row :=
  xs ← read_list h v; mapM read_str xs.

(** The table a value refers to. *)
Definition read_table (h : heap) (v : value) : option Table :=
  xs ← read_list h v; mapM (read_row h) xs.

(** The report a returned pair refers to. *)
Definition read_report (h : heap) (out : value * value) : option ReportResult :=
  headers ← read_row h out.1;
  rows ← read_table h out.2;
  Some (headers, rows).

End Heap.

(** [sample_data] on an empty heap, and the reference to it. *)
Definition sample_heap : heap := (Heap.new_table sample_data []).2.
Definition sample_ref : value := VRef 5.

(** What the heap holds while [for row in rows] runs: the objects of [h0]
    as they were, the list [rows] at [ar], and at [ad] the dict [d], each
    of its lists an object of its own, allocated after the dict. *)
Definition grouping (h0 h : heap) (ar ad : nat) (vs : list value) (d : dict)
    (addrs : list nat) : Prop :=
  h0 `prefix_of` h ∧ (length h0 ≤ ar)%nat ∧ (ar < ad)%nat ∧
  h !! ar = Some (OList vs) ∧
  h !! ad = Some (ODict (zip d.*1 (VRef <$> addrs))) ∧
  NoDup addrs ∧ Forall (λ al, (ad < al)%nat) addrs ∧
  Forall2 (λ (p : string * list PyFloat.float) al,
             h !! al = Some (OList (VFloat <$> p.2))) d addrs.

(** The entries of a dict on the heap [hb] next to the dict [d]: the same
    keys in the same order, each value a reference to the list of floats
    [d] has there. *)
Definition entries_of (hb : heap) (es : list (string * value)) (d : dict) : Prop :=
  Forall2 (λ (e : string * value) (p : string * list PyFloat.float),
             e.1 = p.1 ∧ ∃ al, e.2 = VRef al ∧
                               hb !! al = Some (OList (VFloat <$> p.2))) es d.

(** A row appended to [sample_data] in place, after a first call of the
    report. *)
Definition sample_heap_grown : heap :=
  let h1 := (Heap.performance ascii_builtins PyFloat.sum_plain sample_ref sample_heap).2 in
  ((row ← Heap.alloc (OList (VStr <$> ["Eve"; "Frontend"; "5.0"]%string));
    Heap.list_append sample_ref row) h1).2.

(** * Properties *)

(** ** The float model on known values *)

Example of_string_tenth :
  PyFloat.of_string "0.1" = Some (S754_finite false 7205759403792794 (-56)).
Proof. vm_compute. reflexivity. Qed.

Example of_string_1e23 :
  PyFloat.of_string " 1_0e22 " = Some (S754_finite false 5960464477539062 24).
Proof. vm_compute. reflexivity. Qed.

Example of_string_overflow : PyFloat.of_string "1e400" = Some (S754_infinity false).
Proof. vm_compute. reflexivity. Qed.

Example of_string_words :
  PyFloat.of_string "-Infinity" = Some (S754_infinity true) ∧
  PyFloat.of_string "NaN" = Some S754_nan ∧
  PyFloat.of_string "not_a_number" = None ∧
  PyFloat.of_string "1__0" = None ∧ PyFloat.of_string "." = None.
Proof. repeat split; vm_compute; reflexivity. Qed.

Example format_2f_ties :
  PyFloat.format_2f <$> PyFloat.of_string "0.125" = Some "0.12"%string ∧
  PyFloat.format_2f <$> PyFloat.of_string "0.375" = Some "0.38"%string ∧
  PyFloat.format_2f <$> PyFloat.of_string "2.675" = Some "2.67"%string ∧
  PyFloat.format_2f <$> PyFloat.of_string "-0.001" = Some "-0.00"%string ∧
  PyFloat.format_2f <$> PyFloat.of_string "1e22" =
    Some "10000000000000000000000.00"%string.
Proof. repeat split; vm_compute; reflexivity. Qed.

Example performance_missing_column :
  performance PyFloat.sum_plain [["name"; "perf"]; ["Alice"; "4.5"]]%string =
    Raise (ValueError "Отсутствует колонка: 'position' is not in list").
Proof. vm_compute. reflexivity. Qed.

Example performance_invalid_value :
  performance PyFloat.sum_plain
    (<[1%nat := ["Alice"; "Backend"; "not_a_number"]%string]> sample_data) =
    Raise (FloatValueError "not_a_number").
Proof. vm_compute. reflexivity. Qed.

(** ** Monadic traversals *)

Lemma mapM_result_ok {A B} (f : A -> result B) (g : A -> B) (l : list A) :
  (∀ a, a ∈ l → f a = Ok (g a)) → mapM_result f l = Ok (map g l).
Proof.
  induction l as [|a l IH]; intros Hf; simpl; [done|].
  rewrite Hf by left. simpl.
  rewrite IH; [done|]. intros b Hb. apply Hf. by right.
Qed.

(** ** Order on floats *)

Lemma SFcompare_antisym x y c :
  SFcompare x y = Some c → SFcompare y x = Some (CompOpp c).
Proof.
  destruct x as [sx|sx| |sx mx ex], y as [sy|sy| |sy my ey]; simpl;
    intros H; simplify_eq; try done;
    try (by destruct sx); try (by destruct sy); try (by destruct sx, sy).
  f_equal. rewrite (Z.compare_antisym ex ey).
  pose proof (Pos.compare_cont_antisym mx my Eq) as Hm. simpl in Hm.
  destruct sx, sy; try done; destruct (ex ?= ey); simpl; try done.
  by rewrite <- Hm.
Qed.

Lemma SFcompare_is_Some x y :
  PyFloat.is_nan x = false → PyFloat.is_nan y = false → is_Some (SFcompare x y).
Proof. destruct x, y; simpl; intros; try done; eauto. Qed.

Lemma ltb_asym x y : PyFloat.ltb x y = true → PyFloat.ltb y x = false.
Proof.
  unfold PyFloat.ltb, SFltb. destruct (SFcompare x y) as [c|] eqn:E; [|done].
  rewrite (SFcompare_antisym _ _ _ E). by destruct c.
Qed.

Lemma not_ltb_leb x y :
  PyFloat.is_nan x = false → PyFloat.is_nan y = false →
  PyFloat.ltb x y = false → PyFloat.leb y x = true.
Proof.
  intros Hx Hy. unfold PyFloat.ltb, PyFloat.leb, SFltb, SFleb.
  destruct (SFcompare_is_Some x y Hx Hy) as [c E]. rewrite E.
  rewrite (SFcompare_antisym _ _ _ E). by destruct c.
Qed.

(** ** Characters of a printed number *)

Lemma digit_facts c :
  PyFloat.is_digit c = true →
  PyFloat.is_underscore c = false ∧ PyFloat.is_space c = false ∧
  Ascii.eqb c "-" = false ∧ Ascii.eqb c "+" = false ∧ Ascii.eqb c "." = false ∧
  0 ≤ PyFloat.digit_val c.
Proof.
  destruct c as [[] [] [] [] [] [] [] []]; vm_compute; intros H;
    try discriminate H; repeat split; discriminate.
Qed.

Lemma digit_char_digit z : 0 ≤ z ≤ 9 → PyFloat.is_digit (PyFloat.digit_char z) = true.
Proof.
  intros Hz.
  assert (z = 0 ∨ z = 1 ∨ z = 2 ∨ z = 3 ∨ z = 4 ∨ z = 5 ∨ z = 6 ∨ z = 7 ∨
          z = 8 ∨ z = 9) as Hc by lia.
  repeat (destruct Hc as [->|Hc]; [reflexivity|]). by subst.
Qed.

Lemma chars_app (s1 s2 : string) :
  list_ascii_of_string (s1 ++ s2) = list_ascii_of_string s1 ++ list_ascii_of_string s2.
Proof. induction s1 as [|c s1 IH]; simpl; [done|]. by rewrite IH. Qed.

Lemma uint_chars_digits u :
  Forall (λ c, PyFloat.is_digit c = true) (list_ascii_of_string (NilEmpty.string_of_uint u)).
Proof. induction u; simpl; constructor; done. Qed.

Lemma dec_string_digits z :
  ∃ c ds, list_ascii_of_string (PyFloat.dec_string z) = c :: ds ∧
          Forall (λ c, PyFloat.is_digit c = true) (c :: ds).
Proof.
  unfold PyFloat.dec_string, NilZero.string_of_uint.
  pose proof (uint_chars_digits (N.to_uint (Z.to_N z))) as H.
  destruct (N.to_uint (Z.to_N z)) eqn:E;
    first [ by exists "0"%char, []; split; [done|repeat constructor]
          | simpl in *; eauto ].
Qed.

Lemma drop_underscores_id prev s :
  PyFloat.is_underscore prev = false →
  Forall (λ c, PyFloat.is_underscore c = false) s →
  PyFloat.drop_underscores prev s = Some s.
Proof.
  intros Hp Hs. revert prev Hp.
  induction Hs as [|c s Hc Hs IH]; intros prev Hp; simpl.
  - by rewrite Hp.
  - rewrite Hc, Hp. simpl. by rewrite (IH c Hc).
Qed.

Lemma lstrip_id c s : PyFloat.is_space c = false → PyFloat.lstrip (c :: s) = c :: s.
Proof. intros H. simpl. by rewrite H. Qed.

Lemma strip_id c s d :
  PyFloat.is_space c = false → PyFloat.is_space d = false →
  PyFloat.strip (c :: s ++ [d]) = c :: s ++ [d].
Proof.
  intros Hc Hd. unfold PyFloat.strip. rewrite (lstrip_id c _ Hc).
  change (c :: s ++ [d]) with ((c :: s) ++ [d]).
  rewrite rev_app_distr. simpl rev at 2.
  change ([d] ++ rev (c :: s)) with (d :: rev (c :: s)).
  rewrite (lstrip_id d _ Hd).
  change (d :: rev (c :: s)) with (rev [d] ++ rev (c :: s)).
  by rewrite <- rev_app_distr, rev_involutive.
Qed.

Lemma span_digits_app ds r :
  Forall (λ c, PyFloat.is_digit c = true) ds → PyFloat.span_digits r = ([], r) →
  PyFloat.span_digits (ds ++ r) = (ds, r).
Proof.
  intros Hds Hr. induction Hds as [|c ds Hc Hds IH]; simpl; [done|].
  by rewrite Hc, IH.
Qed.

Lemma digits_val_nonneg ds :
  Forall (λ c, PyFloat.is_digit c = true) ds → 0 ≤ PyFloat.digits_val ds.
Proof.
  unfold PyFloat.digits_val. intros Hds.
  assert (∀ acc, 0 ≤ acc →
    0 ≤ fold_left (λ acc c, 10 * acc + PyFloat.digit_val c) ds acc) as H.
  { induction Hds as [|c ds Hc Hds IH]; intros acc Hacc; simpl; [done|].
    apply IH. pose proof (digit_facts c Hc). lia. }
  by apply H.
Qed.

(** ** Rounding never yields NaN *)

Lemma shr_1_nonneg mrs : 0 ≤ shr_m mrs → 0 ≤ shr_m (shr_1 mrs).
Proof. destruct mrs as [[|[]|[]] r t]; simpl; lia. Qed.

Lemma iter_pos_preserves {A} (P : A → Prop) (f : A → A) p a :
  (∀ a, P a → P (f a)) → P a → P (SpecFloat.iter_pos f p a).
Proof.
  intros Hf. revert a. induction p as [p IH|p IH|]; intros a Ha; simpl; auto.
Qed.

Lemma shr_fexp_nonneg m e l :
  0 ≤ m → 0 ≤ shr_m (shr_fexp PyFloat.prec PyFloat.emax m e l).1.
Proof.
  intros Hm. unfold shr_fexp, shr.
  assert (0 ≤ shr_m (shr_record_of_loc m l)) as H0 by (by destruct l as [|[]]).
  destruct (_ - e) as [|p|p]; simpl; try done.
  by apply (iter_pos_preserves (λ mrs, 0 ≤ shr_m mrs)); [apply shr_1_nonneg|].
Qed.

Lemma round_nearest_even_nonneg m l : 0 ≤ m → 0 ≤ round_nearest_even m l.
Proof.
  intros Hm. destruct l as [|[]]; simpl; try lia. destruct (Z.even m); lia.
Qed.

Lemma binary_round_aux_not_nan sx mx ex lx :
  0 ≤ mx →
  PyFloat.is_nan (binary_round_aux PyFloat.prec PyFloat.emax sx mx ex lx) = false.
Proof.
  intros Hm. unfold binary_round_aux.
  pose proof (shr_fexp_nonneg mx ex lx Hm) as H1.
  destruct (shr_fexp _ _ mx ex lx) as [mrs1 e1]; simpl in H1.
  pose proof (shr_fexp_nonneg _ e1 loc_Exact
    (round_nearest_even_nonneg _ (loc_of_shr_record mrs1) H1)) as H2.
  destruct (shr_fexp _ _ _ e1 loc_Exact) as [mrs2 e2]; simpl in H2.
  destruct (shr_m mrs2); [done| |lia]. by destruct (_ <=? _).
Qed.

Lemma binary_normalize_not_nan m e :
  PyFloat.is_nan (binary_normalize PyFloat.prec PyFloat.emax m e false) = false.
Proof.
  destruct m as [|p|p]; simpl; [done| |]; unfold binary_round;
    destruct (shl_align _ _ _) as [mz ez]; by apply binary_round_aux_not_nan.
Qed.

Lemma of_decimal_not_nan neg m e10 :
  0 ≤ m → PyFloat.is_nan (PyFloat.of_decimal neg m e10) = false.
Proof.
  intros Hm. unfold PyFloat.of_decimal.
  destruct (m =? 0); [done|].
  destruct (0 <=? e10) eqn:He; [apply binary_normalize_not_nan|].
  apply Z.leb_gt in He.
  unfold SFdiv_core_binary.
  set (m' := match _ - _ with 0 => m | Z.pos _ => Z.shiftl m _ | Z.neg _ => 0 end).
  assert (0 ≤ m') as Hm'.
  { subst m'. destruct (_ - _); [done| |done]. by apply Z.shiftl_nonneg. }
  assert (0 < 10 ^ (- e10)) as Hd by (apply Z.pow_pos_nonneg; lia).
  pose proof (Z.div_pos m' _ Hm' Hd) as Hq. unfold Z.div in Hq.
  destruct (Z.div_eucl m' _) as [q r]. by apply binary_round_aux_not_nan.
Qed.

(** ** Reading back a printed number *)

Lemma parse_decimal_fixed neg c ds a b :
  Forall (λ c, PyFloat.is_digit c = true) (c :: ds) →
  PyFloat.is_digit a = true → PyFloat.is_digit b = true →
  PyFloat.parse_decimal neg ((c :: ds) ++ ["."%char; a; b]) =
    Some (PyFloat.of_decimal neg (PyFloat.digits_val ((c :: ds) ++ [a; b])) (0 - 2)).
Proof.
  intros Hds Ha Hb. unfold PyFloat.parse_decimal.
  rewrite (span_digits_app (c :: ds) _ Hds) by done.
  simpl. by rewrite Ha, Hb.
Qed.

Lemma of_chars_fixed neg c ds a b :
  Forall (λ c, PyFloat.is_digit c = true) (c :: ds) →
  PyFloat.is_digit a = true → PyFloat.is_digit b = true →
  PyFloat.of_chars
    (list_ascii_of_string (PyFloat.sign_string neg) ++ (c :: ds) ++ ["."%char; a; b]) =
    Some (PyFloat.of_decimal neg (PyFloat.digits_val ((c :: ds) ++ [a; b])) (0 - 2)).
Proof.
  intros Hds Ha Hb.
  pose proof (parse_decimal_fixed neg c ds a b Hds Ha Hb) as Hparse.
  assert (Forall (λ c, PyFloat.is_underscore c = false) ((c :: ds) ++ ["."%char; a; b])) as Hu.
  { apply Forall_app. split.
    - eapply Forall_impl; [exact Hds|]. intros x Hx. apply (digit_facts x Hx).
    - repeat constructor; by apply digit_facts. }
  assert ((c :: ds) ++ ["."%char; a; b] = c :: (ds ++ ["."%char; a]) ++ [b]) as E1
    by (simpl; by rewrite <- app_assoc).
  assert ("-"%char :: (c :: ds) ++ ["."%char; a; b] =
          "-"%char :: ((c :: ds) ++ ["."%char; a]) ++ [b]) as E2
    by (simpl; by rewrite <- app_assoc).
  assert (PyFloat.strip ((c :: ds) ++ ["."%char; a; b]) = (c :: ds) ++ ["."%char; a; b]) as Hs1.
  { rewrite E1. apply strip_id.
    - inversion Hds; subst. by apply digit_facts.
    - by apply digit_facts. }
  assert (PyFloat.strip ("-"%char :: (c :: ds) ++ ["."%char; a; b]) =
          "-"%char :: (c :: ds) ++ ["."%char; a; b]) as Hs2.
  { rewrite E2. apply strip_id; [done|by apply digit_facts]. }
  unfold PyFloat.of_chars. destruct neg; simpl PyFloat.sign_string; simpl list_ascii_of_string.
  - change (["-"%char] ++ (c :: ds) ++ ["."%char; a; b])
      with ("-"%char :: (c :: ds) ++ ["."%char; a; b]).
    rewrite drop_underscores_id; [|done|by constructor].
    unfold mbind, option_bind. rewrite Hs2.
    change (PyFloat.split_sign ("-"%char :: (c :: ds) ++ ["."%char; a; b]))
      with (true, (c :: ds) ++ ["."%char; a; b]).
    cbv beta iota. by rewrite Hparse.
  - change ([] ++ (c :: ds) ++ ["."%char; a; b]) with ((c :: ds) ++ ["."%char; a; b]).
    rewrite drop_underscores_id; [|done|done].
    unfold mbind, option_bind. rewrite Hs1.
    assert (PyFloat.split_sign ((c :: ds) ++ ["."%char; a; b]) =
            (false, (c :: ds) ++ ["."%char; a; b])) as ->.
    { inversion Hds as [|? ? Hc ?]; subst.
      destruct (digit_facts c Hc) as (_ & _ & Hm & Hp & _).
      simpl. by rewrite Hm, Hp. }
    cbv beta iota. by rewrite Hparse.
Qed.

Lemma hundredths_nonneg m e : 0 ≤ PyFloat.hundredths m e.
Proof.
  unfold PyFloat.hundredths, PyFloat.round_half_even.
  destruct (0 <=? e) eqn:He.
  - apply Z.leb_le in He. pose proof (Z.pow_nonneg 2 e). lia.
  - apply Z.leb_gt in He.
    assert (0 < 2 ^ (- e)) as Hd by (apply Z.pow_pos_nonneg; lia).
    pose proof (Z.div_pos (Z.pos m * 100) _ ltac:(lia) Hd) as Hq.
    destruct (_ ?= _); [destruct (Z.even _)| |]; lia.
Qed.

(** The characters of a number printed in fixed point. *)
Lemma fixed2_chars neg h :
  0 ≤ h →
  ∃ c ds a b,
    list_ascii_of_string (PyFloat.fixed2 neg h) =
      list_ascii_of_string (PyFloat.sign_string neg) ++ (c :: ds) ++ ["."%char; a; b] ∧
    Forall (λ c, PyFloat.is_digit c = true) (c :: ds) ∧
    PyFloat.is_digit a = true ∧ PyFloat.is_digit b = true.
Proof.
  intros Hh. destruct (dec_string_digits (h / 100)) as (c & ds & Hc & Hds).
  exists c, ds, (PyFloat.digit_char (h mod 100 / 10)), (PyFloat.digit_char (h mod 10)).
  split; [|split; [done|split]].
  - unfold PyFloat.fixed2. by rewrite !chars_app, Hc.
  - apply digit_char_digit.
    pose proof (Z.mod_pos_bound h 100 ltac:(lia)) as Hm.
    split; [apply Z.div_pos; lia|].
    assert (h mod 100 / 10 < 10); [apply Z.div_lt_upper_bound|]; lia.
  - apply digit_char_digit. pose proof (Z.mod_pos_bound h 10 ltac:(lia)). lia.
Qed.

Lemma format_2f_chars x :
  PyFloat.is_finite x = true →
  ∃ neg c ds a b,
    list_ascii_of_string (PyFloat.format_2f x) =
      list_ascii_of_string (PyFloat.sign_string neg) ++ (c :: ds) ++ ["."%char; a; b] ∧
    Forall (λ c, PyFloat.is_digit c = true) (c :: ds) ∧
    PyFloat.is_digit a = true ∧ PyFloat.is_digit b = true.
Proof.
  destruct x as [neg|neg| |neg m e]; intros Hx; try discriminate Hx; simpl; exists neg.
  - by apply fixed2_chars.
  - apply fixed2_chars, hundredths_nonneg.
Qed.

(** [float] accepts every string [format(x, ".2f")] prints, and reads NaN
    from it only when [x] is NaN. *)
Lemma format_2f_reparse x :
  ∃ y, PyFloat.of_string (PyFloat.format_2f x) = Some y ∧
       (PyFloat.is_nan x = false → PyFloat.is_nan y = false).
Proof.
  destruct (PyFloat.is_finite x) eqn:Hfin.
  - destruct (format_2f_chars x Hfin) as (neg & c & ds & a & b & Hs & Hds & Ha & Hb).
    eexists. split.
    + unfold PyFloat.of_string. rewrite Hs. by apply of_chars_fixed.
    + intros _. apply of_decimal_not_nan, digits_val_nonneg.
      apply Forall_app. split; [done|]. by repeat constructor.
  - destruct x as [neg|[]| |neg m e]; try discriminate Hfin.
    + by exists (S754_infinity true).
    + by exists (S754_infinity false).
    + by exists S754_nan.
Qed.

Lemma format_2f_fixed x :
  PyFloat.is_finite x = true → is_fixed_2 (PyFloat.format_2f x) = true.
Proof.
  intros Hfin.
  destruct (format_2f_chars x Hfin) as (neg & c & ds & a & b & Hs & Hds & Ha & Hb).
  unfold is_fixed_2. rewrite Hs.
  assert (PyFloat.span_digits ((c :: ds) ++ ["."%char; a; b]) =
          (c :: ds, ["."%char; a; b])) as Hspan by (by apply span_digits_app).
  destruct neg; simpl PyFloat.sign_string; simpl list_ascii_of_string.
  - change (["-"%char] ++ (c :: ds) ++ ["."%char; a; b])
      with ("-"%char :: (c :: ds) ++ ["."%char; a; b]).
    cbv beta iota zeta. change (Ascii.eqb "-" "-") with true. cbv iota.
    rewrite Hspan. by rewrite Ha, Hb.
  - change ([] ++ (c :: ds) ++ ["."%char; a; b]) with (c :: ds ++ ["."%char; a; b]).
    cbv beta iota zeta.
    inversion Hds as [|? ? Hc ?]; subst.
    destruct (digit_facts c Hc) as (_ & _ & Hm & _). rewrite Hm.
    change (c :: ds ++ ["."%char; a; b]) with ((c :: ds) ++ ["."%char; a; b]).
    rewrite Hspan. by rewrite Ha, Hb.
Qed.

Lemma format_2f_not_finite x :
  PyFloat.is_finite x = false →
  PyFloat.format_2f x = "inf"%string ∨ PyFloat.format_2f x = "-inf"%string ∨
  PyFloat.format_2f x = "nan"%string.
Proof. destruct x as [|[]| |]; intros H; try discriminate H; simpl; auto. Qed.

(** ** The sort *)

Section Sort.
Context {A : Type}.
Implicit Types (x : PyFloat.float * A) (l : list (PyFloat.float * A)).

Lemma insert_desc_perm x l : insert_desc x l ≡ₚ x :: l.
Proof.
  induction l as [|y l IH]; simpl; [done|].
  destruct (PyFloat.ltb x.1 y.1); [|done].
  rewrite IH. apply Permutation_swap.
Qed.

Lemma sort_desc_perm l : sort_desc l ≡ₚ l.
Proof.
  induction l as [|x l IH]; simpl; [done|].
  fold (sort_desc l). by rewrite insert_desc_perm, IH.
Qed.

Lemma descending_cons x y l :
  PyFloat.ltb x.1 y.1 = false → descending (y :: l) → descending (x :: y :: l).
Proof.
  intros Hxy Hl [|i] a b Ha Hb; simpl in *.
  - by simplify_eq.
  - by apply (Hl i).
Qed.

Lemma descending_tail x l : descending (x :: l) → descending l.
Proof. intros Hl i a b Ha Hb. by apply (Hl (S i)). Qed.

Lemma descending_head x y l : descending (x :: y :: l) → PyFloat.ltb x.1 y.1 = false.
Proof. intros Hl. by apply (Hl 0%nat). Qed.

Lemma insert_desc_head x l :
  head (insert_desc x l) = Some x ∨ head (insert_desc x l) = head l.
Proof. destruct l as [|y l]; simpl; [by left|]. destruct (PyFloat.ltb _ _); auto. Qed.

Lemma insert_desc_descending x l : descending l → descending (insert_desc x l).
Proof.
  induction l as [|y l IH]; intros Hl; simpl.
  - by intros [|i] a b Ha Hb.
  - destruct (PyFloat.ltb x.1 y.1) eqn:Hxy.
    + specialize (IH (descending_tail _ _ Hl)).
      destruct (insert_desc_head x l) as [Hh|Hh];
        destruct (insert_desc x l) as [|w t] eqn:E; simpl in Hh; simplify_eq.
      * apply descending_cons; [by apply ltb_asym|done].
      * by intros [|i] a b Ha Hb.
      * destruct l as [|z l]; simplify_eq/=.
        apply descending_cons; [by apply (descending_head _ _ _ Hl)|done].
    + by apply descending_cons.
Qed.

Lemma sort_desc_descending l : descending (sort_desc l).
Proof.
  induction l as [|x l IH]; simpl.
  - by intros [|i] a b Ha Hb.
  - by apply insert_desc_descending.
Qed.

End Sort.

(** ** The dictionary of observations *)

Lemma dict_mem_spec k (d : dict) : dict_mem k d = true ↔ k ∈ d.*1.
Proof.
  unfold dict_mem. induction d as [|[k' v] d IH]; csimpl.
  - split; [done|]. by intros ?%elem_of_nil.
  - rewrite orb_true_iff, IH, elem_of_cons, String.eqb_eq. simpl.
    split; intros [?|?]; auto.
Qed.

Lemma dict_set_fresh k v (d : dict) : k ∉ d.*1 → dict_set k v d = d ++ [(k, v)].
Proof.
  induction d as [|[k' v'] d IH]; simpl; [done|].
  rewrite not_elem_of_cons. intros [Hne Hd].
  destruct (String.eqb_spec k' k); [congruence|]. by rewrite IH.
Qed.

Lemma dict_append_keys k x (d : dict) : (dict_append k x d).*1 = d.*1.
Proof.
  induction d as [|[k' v'] d IH]; csimpl; [done|].
  destruct (String.eqb k' k); csimpl; [done|]. by rewrite IH.
Qed.

Lemma elem_of_dict_append k x (d : dict) k' vs' :
  NoDup d.*1 → (k', vs') ∈ dict_append k x d →
  (k' ≠ k ∧ (k', vs') ∈ d) ∨ (k' = k ∧ ∃ vs, (k, vs) ∈ d ∧ vs' = vs ++ [x]).
Proof.
  induction d as [|[k0 v0] d IH]; simpl; [by intros _ ?%elem_of_nil|].
  rewrite NoDup_cons. intros [Hk0 Hnd].
  destruct (String.eqb_spec k0 k) as [->|Hne].
  - rewrite elem_of_cons. intros [[= -> ->]|Hin].
    + right. split; [done|]. exists v0. split; [left|done].
    + left. split; [|by right]. intros ->. apply Hk0.
      apply list_elem_of_fmap. by exists (k, vs').
  - rewrite elem_of_cons. intros [[= -> ->]|Hin].
    + left. split; [done|left].
    + destruct (IH Hnd Hin) as [[? ?]|(-> & vs & ? & ->)].
      * left. split; [done|by right].
      * right. split; [done|]. exists vs. split; [by right|done].
Qed.






(** ** The report on a valid table *)

Lemma zip_fmap_self {A B} (f : A → B) (l : list A) :
  zip (f <$> l) l = (λ a, (f a, a)) <$> l.
Proof. induction l as [|a l IH]; csimpl; [done|]. by rewrite IH. Qed.


Section ReportFacts.
Variable fsum : list PyFloat.float -> PyFloat.float.


Lemma performance_indexed headers rows pos_idx perf_idx :
  index_from "position" headers 0 = Some pos_idx →
  index_from "performance" headers 0 = Some perf_idx →
  performance fsum (headers :: rows) =
    perf_data ← foldM_result (group_row pos_idx perf_idx) [] rows;
    result ← mapM_result (result_row fsum) perf_data;
    result ← sort_by_key_desc sort_key result;
    Ok (report_header, number_rows result).
Proof.
  intros Hpos Hperf. unfold performance, index, getitem. simpl.
  rewrite Hpos, Hperf. simpl. by rewrite drop_0.
Qed.


End ReportFacts.

(** ** Rows of the report *)

Lemma number_rows_lookup (sorted : list (list string)) i row :
  number_rows sorted !! i = Some row →
  ∃ a, sorted !! i = Some a ∧ row = str_of_nat (i + 1) :: a.
Proof.
  unfold number_rows. rewrite list_lookup_imap.
  destruct (sorted !! i) as [a|]; simpl; [|done]. intros [= <-]. eauto.
Qed.

Lemma elem_of_number_rows (sorted : list (list string)) row :
  row ∈ number_rows sorted → ∃ rank a, a ∈ sorted ∧ row = rank :: a.
Proof.
  intros (i & Hi)%list_elem_of_lookup_1.
  apply number_rows_lookup in Hi as (a & Ha & ->).
  exists (str_of_nat (i + 1)), a. split; [|done]. by eapply list_elem_of_lookup_2.
Qed.

Lemma length_omap_le {A B} (f : A → option B) (l : list A) :
  (length (omap f l) ≤ length l)%nat.
Proof.
  induction l as [|a l IH]; csimpl; [done|]. destruct (f a); csimpl; lia.
Qed.

Lemma length_positions data : (length (positions data) ≤ length (drop 1 data))%nat.
Proof.
  destruct data as [|headers rows]; simpl; [done|]. rewrite drop_0.
  destruct (index_from _ _ _); [apply length_omap_le|simpl; lia].
Qed.

(** ** The dispatcher *)

Lemma generate_performance fsum data :
  generate fsum "performance" data = performance fsum data.
Proof. reflexivity. Qed.

Lemma generate_unknown fsum data :
  generate fsum "unknown" data = Raise (ValueError "Отчёт 'unknown' не найден.").
Proof. reflexivity. Qed.

Lemma run_generate_uncaught fsum fs files data :
  merge_files fs files [] = inr data →
  run fsum fs files "generate" = Uncaught TypeError.
Proof. intros Hmerge. unfold run. by rewrite Hmerge. Qed.

(** ** The merge loop *)

Lemma merge_files_step fs file_path files all_data data :
  endswith file_path ".csv" = true → fs file_path = Some (Ok data) →
  merge_files fs (file_path :: files) all_data =
    merge_files fs files
      (match all_data with [] => data | _ => all_data ++ drop 1 data end).
Proof.
  intros Hext Hfile. simpl. unfold path_exists, read.
  rewrite bool_decide_eq_true_2 by (rewrite Hfile; eauto).
  rewrite Hext, Hfile. simpl. by destruct all_data.
Qed.

(** * Properties of the specification *)

(** C2. On the table with header [name, position, performance] and the rows
    of Alice, Bob, Charlie and Diana, the performance report returns the
    header [№, position, performance] and the rows [1, Backend, 4.90] and
    [2, Frontend, 4.50], in that order, under either summation. *)
Theorem performance_sample_data :
  performance PyFloat.sum_plain sample_data =
    Ok (["№"; "position"; "performance"]%string,
        [["1"; "Backend"; "4.90"]; ["2"; "Frontend"; "4.50"]]%string) ∧
  performance PyFloat.sum_compensated sample_data =
    Ok (["№"; "position"; "performance"]%string,
        [["1"; "Backend"; "4.90"]; ["2"; "Frontend"; "4.50"]]%string).
Proof. split; vm_compute; reflexivity. Qed.

(** C5. Asked for the report named [generate], the dispatcher finds its own
    method, which is callable, and calls it with the table alone: the
    outcome is a [TypeError], not the [ValueError] that names an unknown
    report, on every table. *)
Theorem generate_own_name fsum data :
  generate fsum "generate" data = Raise TypeError ∧
  generate fsum "generate" data ≠
    Raise (ValueError ("Отчёт '" ++ "generate" ++ "' не найден.")).
Proof. split; [reflexivity|discriminate]. Qed.

(** C6. Two files with the same header and M and N data rows merge into
    that header followed by the data rows of the first file and then those
    of the second: 1 + M + N rows. *)
Theorem merge_two_files fs path1 path2 (header : Row) (rows1 rows2 : list Row) :
  endswith path1 ".csv" = true → endswith path2 ".csv" = true →
  fs path1 = Some (Ok (header :: rows1)) →
  fs path2 = Some (Ok (header :: rows2)) →
  merge_files fs [path1; path2] [] = inr (header :: rows1 ++ rows2) ∧
  length (header :: rows1 ++ rows2) = (1 + length rows1 + length rows2)%nat.
Proof.
  intros Hext1 Hext2 Hfile1 Hfile2. split.
  - rewrite (merge_files_step _ _ _ _ _ Hext1 Hfile1).
    by rewrite (merge_files_step _ _ _ _ _ Hext2 Hfile2).
  - simpl. by rewrite length_app.
Qed.

Lemma merge_two_files_witness :
  merge_files two_files ["a.csv"; "b.csv"]%string [] = inr sample_data ∧
  length sample_data = 5%nat.
Proof.
  apply (merge_two_files two_files "a.csv" "b.csv"
           ["name"; "position"; "performance"]%string
           [["Alice"; "Backend"; "4.8"]; ["Bob"; "Backend"; "5.0"]]%string
           [["Charlie"; "Frontend"; "4.4"]; ["Diana"; "Frontend"; "4.6"]]%string);
    reflexivity.
Defined.

(** C7. For a path that does not end in [.csv], [CSVReader.read] raises the
    [ValueError] that names the path and makes no file-system call. *)
Theorem read_rejects_other_suffix fs file_path :
  endswith file_path ".csv" = false →
  read fs file_path =
    (Raise (ValueError ("Файл должен быть в формате .csv: " ++ file_path)), []).
Proof. intros Hext. unfold read. by rewrite Hext. Qed.

Lemma read_rejects_other_suffix_witness :
  endswith "data.txt" ".csv" = false ∧
  read two_files "data.txt" =
    (Raise (ValueError "Файл должен быть в формате .csv: data.txt"), []).
Proof.
  split; [reflexivity|].
  apply (read_rejects_other_suffix two_files "data.txt"). reflexivity.
Defined.

(** C9. On the table with no row at all the performance report raises
    [IndexError] at [data[0]]: it returns nothing, and the error is none of
    the [ValueError]s of a missing column or an unreadable number. *)
Theorem performance_empty_table fsum :
  performance fsum [] = Raise IndexError ∧ is_ValueError IndexError = false.
Proof. split; reflexivity. Qed.

(** C10. While every file read so far gave an empty table, the next file's
    table becomes the accumulator as it is, header row included; the loop
    goes on from there. *)
Theorem merge_adopts_first_nonempty fs (empties : list string) file_path files data :
  Forall (λ q, endswith q ".csv" = true ∧ fs q = Some (Ok [])) empties →
  endswith file_path ".csv" = true → fs file_path = Some (Ok data) →
  merge_files fs (empties ++ file_path :: files) [] = merge_files fs files data.
Proof.
  intros Hempty Hext Hfile.
  induction Hempty as [|q empties [Hq1 Hq2] _ IH].
  - rewrite app_nil_l. by rewrite (merge_files_step _ _ _ _ _ Hext Hfile).
  - change ((q :: empties) ++ file_path :: files)
      with (q :: empties ++ file_path :: files).
    by rewrite (merge_files_step _ _ _ _ _ Hq1 Hq2).
Qed.

Lemma merge_adopts_first_nonempty_witness :
  merge_files empty_then_full ["empty.csv"; "full.csv"]%string [] =
    inr [["name"; "position"; "performance"]; ["Alice"; "Backend"; "4.8"]]%string.
Proof.
  apply (merge_adopts_first_nonempty empty_then_full ["empty.csv"%string]
           "full.csv" [] (take 2 sample_data)).
  - repeat constructor.
  - reflexivity.
  - reflexivity.
Defined.

(** C1, as stated, fails on [tie_data]: the means 4.896 and 4.904 both print
    as 4.90, the rows keep their input order, and the first row's group has
    the smaller mean. *)
Lemma tie_data_not_sorted_by_group_mean :
  valid_table tie_data = true ∧
  performance PyFloat.sum_plain tie_data =
    Ok (["№"; "position"; "performance"]%string,
        [["1"; "A"; "4.90"]; ["2"; "B"; "4.90"]]%string) ∧
  PyFloat.ltb (group_mean PyFloat.sum_plain tie_data "A")
              (group_mean PyFloat.sum_plain tie_data "B") = true ∧
  ¬ sorted_by_group_mean PyFloat.sum_plain tie_data ∧
  ¬ sorted_by_group_mean PyFloat.sum_compensated tie_data.
Proof.
  split; [reflexivity|]. split; [vm_compute; reflexivity|].
  split; [vm_compute; reflexivity|].
  split; intros H.
  - pose proof (H _ _ 0%nat ["1"; "A"; "4.90"]%string ["2"; "B"; "4.90"]%string
      "A"%string "B"%string ltac:(vm_compute; reflexivity)
      eq_refl eq_refl eq_refl eq_refl) as Hle.
    vm_compute in Hle. discriminate Hle.
  - pose proof (H _ _ 0%nat ["1"; "A"; "4.90"]%string ["2"; "B"; "4.90"]%string
      "A"%string "B"%string ltac:(vm_compute; reflexivity)
      eq_refl eq_refl eq_refl eq_refl) as Hle.
    vm_compute in Hle. discriminate Hle.
Qed.

(** C3, as stated, fails on [inf_data]: the only performance cell reads as
    a float, the mean of the group is infinite, and its average cell is the
    word inf. *)
Lemma inf_data_average_not_fixed_point :
  valid_table inf_data = true ∧
  performance PyFloat.sum_plain inf_data =
    Ok (["№"; "position"; "performance"]%string, [["1"; "A"; "inf"]]%string) ∧
  ¬ averages_in_fixed_point PyFloat.sum_plain inf_data ∧
  ¬ averages_in_fixed_point PyFloat.sum_compensated inf_data.
Proof.
  split; [reflexivity|]. split; [vm_compute; reflexivity|].
  split; intros H.
  - pose proof (H _ _ ["1"; "A"; "inf"]%string "inf"%string
      ltac:(vm_compute; reflexivity) ltac:(left) eq_refl) as Hfixed.
    discriminate Hfixed.
  - pose proof (H _ _ ["1"; "A"; "inf"]%string "inf"%string
      ltac:(vm_compute; reflexivity) ltac:(left) eq_refl) as Hfixed.
    discriminate Hfixed.
Qed.

(** * Further properties *)

(** ** Errors of the performance report *)

Lemma index_from_None x l i : index_from x l i = None ↔ x ∉ l.
Proof.
  revert i. induction l as [|y l IH]; intros i; simpl.
  - split; [intros _ ?%elem_of_nil; done|done].
  - rewrite not_elem_of_cons. destruct (String.eqb_spec y x) as [->|Hne].
    + split; [done|]. by intros [? _].
    + rewrite IH. split; [by split|by intros [_ ?]].
Qed.

Lemma index_from_Some_elem x l i j : index_from x l i = Some j → x ∈ l.
Proof.
  revert i. induction l as [|y l IH]; intros i; simpl; [done|].
  destruct (String.eqb_spec y x) as [->|Hne]; [by left|]. intros ?%IH. by right.
Qed.

Lemma index_from_is_Some x l : x ∈ l → is_Some (index_from x l 0).
Proof.
  intros Hin. destruct (index_from x l 0) eqn:E; [eauto|].
  by apply index_from_None in E.
Qed.

Lemma foldM_result_app {A B} (f : B → A → result B) b (l1 l2 : list A) :
  foldM_result f b (l1 ++ l2) = b' ← foldM_result f b l1; foldM_result f b' l2.
Proof.
  revert b. induction l1 as [|a l1 IH]; intros b; simpl; [done|].
  destruct (f b a); simpl; [apply IH|done].
Qed.



Lemma forallb_first_false {A} (f : A → bool) (l : list A) :
  forallb f l = false →
  ∃ good bad rest, l = good ++ bad :: rest ∧ forallb f good = true ∧ f bad = false.
Proof.
  induction l as [|a l IH]; simpl; [done|].
  destruct (f a) eqn:Ha; simpl.
  - intros (good & bad & rest & -> & Hgood & Hbad)%IH.
    exists (a :: good), bad, rest. simpl. by rewrite Ha, Hgood.
  - intros _. by exists [], a, l.
Qed.

Section ReportErrors.
Variable fsum : list PyFloat.float -> PyFloat.float.


(** X3. When the header has no [position] column the report raises the
    missing-column [ValueError] for [position], whatever the data rows hold
    and whether or not [performance] is there. *)
Theorem performance_missing_position headers rows :
  "position"%string ∉ headers →
  performance fsum (headers :: rows) =
    Raise (ValueError "Отсутствует колонка: 'position' is not in list").
Proof.
  intros Hpos%(index_from_None _ _ 0%nat).
  unfold performance, index, getitem. simpl. by rewrite Hpos.
Qed.

(** X4. When the header has [position] and no [performance] column the
    report raises the missing-column [ValueError] for [performance],
    whatever the data rows hold. *)
Theorem performance_missing_performance headers rows :
  "position"%string ∈ headers → "performance"%string ∉ headers →
  performance fsum (headers :: rows) =
    Raise (ValueError "Отсутствует колонка: 'performance' is not in list").
Proof.
  intros [pos_idx Hpos]%index_from_is_Some Hperf%(index_from_None _ _ 0%nat).
  unfold performance, index, getitem. simpl. by rewrite Hpos, Hperf.
Qed.


End ReportErrors.


Lemma nat_of_str_of_nat n : nat_of_str (str_of_nat n) = Some n.
Proof.
  unfold nat_of_str, str_of_nat.
  assert (Nat.to_uint n ≠ Decimal.Nil) as Hnil.
  { intros E. pose proof (DecimalNat.Unsigned.of_to n) as Hn.
    rewrite E in Hn. simpl in Hn. subst n. discriminate E. }
  rewrite (NilZero.usu _ Hnil). simpl. f_equal. apply DecimalNat.Unsigned.of_to.
Qed.

Section ReportOutcome.
Variable fsum : list PyFloat.float -> PyFloat.float.

Lemma performance_missing_position_witness :
  performance PyFloat.sum_plain [["name"; "perf"]; ["Alice"; "4.5"]]%string =
    Raise (ValueError "Отсутствует колонка: 'position' is not in list").
Proof.
  apply (performance_missing_position PyFloat.sum_plain
           ["name"; "perf"]%string [["Alice"; "4.5"]%string]).
  apply (index_from_None _ _ 0%nat). reflexivity.
Defined.

Lemma performance_missing_performance_witness :
  performance PyFloat.sum_plain [["position"; "perf"]; ["Backend"; "x"]]%string =
    Raise (ValueError "Отсутствует колонка: 'performance' is not in list").
Proof.
  apply (performance_missing_performance PyFloat.sum_plain
           ["position"; "perf"]%string [["Backend"; "x"]%string]).
  - left.
  - apply (index_from_None _ _ 0%nat). reflexivity.
Defined.



(** X8. A table that is a header row alone, naming both columns, gives the
    report header and no rows. *)
Theorem performance_header_only headers :
  "position"%string ∈ headers → "performance"%string ∈ headers →
  performance fsum [headers] = Ok (report_header, []).
Proof.
  intros [pos_idx Hpos]%index_from_is_Some [perf_idx Hperf]%index_from_is_Some.
  by rewrite (performance_indexed fsum _ _ _ _ Hpos Hperf).
Qed.

End ReportOutcome.


Lemma performance_header_only_witness :
  performance PyFloat.sum_plain [["name"; "position"; "performance"]%string] =
    Ok (report_header, []).
Proof.
  apply (performance_header_only PyFloat.sum_plain
           ["name"; "position"; "performance"]%string).
  - right. left.
  - right. right. left.
Defined.

(** ** The grouping loop *)






(** ** Columns the report does not read *)




(** ** Merging any number of files *)

Lemma merge_files_onto fs files tables acc :
  acc ≠ [] →
  Forall2 (λ file_path data,
    endswith file_path ".csv" = true ∧ fs file_path = Some (Ok data)) files tables →
  merge_files fs files acc = inr (acc ++ concat (drop 1 <$> tables)).
Proof.
  intros Hacc Hfiles. revert acc Hacc.
  induction Hfiles as [|file_path data files tables [Hext Hfile] _ IH]; intros acc Hacc.
  - simpl. by rewrite app_nil_r.
  - rewrite (merge_files_step _ _ _ _ _ Hext Hfile).
    destruct acc as [|row acc]; [done|].
    rewrite IH by done. csimpl. by rewrite <- app_assoc.
Qed.

(** X11. Files are merged by keeping the first table whole and appending
    every later table without its first row: no header is compared, and a
    later file with an empty table adds nothing. *)
Theorem merge_many_files fs file_path data files tables :
  endswith file_path ".csv" = true → fs file_path = Some (Ok data) → data ≠ [] →
  Forall2 (λ file_path data,
    endswith file_path ".csv" = true ∧ fs file_path = Some (Ok data)) files tables →
  merge_files fs (file_path :: files) [] = inr (data ++ concat (drop 1 <$> tables)).
Proof.
  intros Hext Hfile Hdata Hfiles.
  rewrite (merge_files_step _ _ _ _ _ Hext Hfile).
  by apply merge_files_onto.
Qed.

Lemma merge_many_files_witness :
  merge_files two_files ["a.csv"; "b.csv"; "a.csv"]%string [] =
    inr (take 3 sample_data ++
         concat (drop 1 <$> [take 1 sample_data ++ drop 3 sample_data;
                            take 3 sample_data])).
Proof.
  apply (merge_many_files two_files "a.csv" (take 3 sample_data)
           ["b.csv"; "a.csv"]%string
           [take 1 sample_data ++ drop 3 sample_data; take 3 sample_data]);
    [reflexivity|reflexivity|discriminate|].
  repeat constructor.
Defined.

(** ** The first file that cannot be read *)

Lemma merge_files_readable fs good rest acc :
  Forall (readable fs) good →
  ∃ acc', merge_files fs (good ++ rest) acc = merge_files fs rest acc'.
Proof.
  intros Hgood. revert acc.
  induction Hgood as [|file_path good [Hext [data Hfile]] _ IH]; intros acc.
  - by exists acc.
  - change ((file_path :: good) ++ rest) with (file_path :: good ++ rest).
    rewrite (merge_files_step _ _ _ _ _ Hext Hfile). apply IH.
Qed.

Section Run.
Variable fsum : list PyFloat.float -> PyFloat.float.

(** X12. When the files before it are read, a path at which no file exists
    ends the run with the parser error for that missing file, for every
    report name and whatever its suffix; no report is generated. *)
Theorem run_missing_file fs good bad rest report :
  Forall (readable fs) good → fs bad = None →
  run fsum fs (good ++ bad :: rest) report = ParserError (FileMissing bad).
Proof.
  intros Hgood Hbad. unfold run.
  destruct (merge_files_readable fs good (bad :: rest) [] Hgood) as [acc ->].
  simpl. unfold path_exists. rewrite Hbad.
  rewrite bool_decide_eq_false_2 by (by intros [? ?]). done.
Qed.

(** X13. When the files before it are read, an existing file whose path
    does not end in [.csv] ends the run with the parser error carrying the
    [ValueError] of [CSVReader.read], for every report name. *)
Theorem run_wrong_suffix fs good bad rest report :
  Forall (readable fs) good → is_Some (fs bad) → endswith bad ".csv" = false →
  run fsum fs (good ++ bad :: rest) report =
    ParserError (ReadFailed bad
      (ValueError ("Файл должен быть в формате .csv: " ++ bad))).
Proof.
  intros Hgood Hbad Hext. unfold run.
  destruct (merge_files_readable fs good (bad :: rest) [] Hgood) as [acc ->].
  simpl. unfold path_exists, read.
  rewrite bool_decide_eq_true_2 by done. by rewrite Hext.
Qed.

(** X14. When the files before it are read, a [.csv] file whose reading
    raises ends the run with the parser error carrying that exception,
    whatever its class, for every report name. *)
Theorem run_read_error fs good bad rest report e :
  Forall (readable fs) good →
  endswith bad ".csv" = true → fs bad = Some (Raise e) →
  run fsum fs (good ++ bad :: rest) report = ParserError (ReadFailed bad e).
Proof.
  intros Hgood Hext Hbad. unfold run.
  destruct (merge_files_readable fs good (bad :: rest) [] Hgood) as [acc ->].
  simpl. unfold path_exists, read.
  rewrite bool_decide_eq_true_2 by (rewrite Hbad; eauto). by rewrite Hext, Hbad.
Qed.

(** X16. When every file is an empty [.csv] table, the run for the report
    [performance] ends in an uncaught [IndexError], not in a parser
    error. *)
Theorem run_empty_files fs files :
  Forall (λ file_path,
    endswith file_path ".csv" = true ∧ fs file_path = Some (Ok [])) files →
  run fsum fs files "performance" = Uncaught IndexError.
Proof.
  intros Hfiles. unfold run.
  assert (merge_files fs files [] = inr []) as ->; [|done].
  induction Hfiles as [|file_path files [Hext Hfile] _ IH]; [done|].
  by rewrite (merge_files_step _ _ _ _ _ Hext Hfile).
Qed.

End Run.

Lemma run_missing_file_witness :
  run PyFloat.sum_plain two_files ["a.csv"; "missing.csv"; "b.csv"]%string "unknown" =
    ParserError (FileMissing "missing.csv").
Proof.
  apply (run_missing_file PyFloat.sum_plain two_files ["a.csv"%string]
           "missing.csv" ["b.csv"%string] "unknown").
  - repeat constructor. by eexists.
  - reflexivity.
Defined.

Lemma run_wrong_suffix_witness :
  run PyFloat.sum_plain mixed_files ["a.csv"; "notes.txt"]%string "performance" =
    ParserError (ReadFailed "notes.txt"
      (ValueError "Файл должен быть в формате .csv: notes.txt")).
Proof.
  apply (run_wrong_suffix PyFloat.sum_plain mixed_files ["a.csv"%string]
           "notes.txt" [] "performance").
  - repeat constructor. by eexists.
  - by eexists.
  - reflexivity.
Defined.

Lemma run_read_error_witness :
  run PyFloat.sum_plain mixed_files ["a.csv"; "gone.csv"]%string "performance" =
    ParserError (ReadFailed "gone.csv" FileNotFoundError).
Proof.
  apply (run_read_error PyFloat.sum_plain mixed_files ["a.csv"%string]
           "gone.csv" [] "performance" FileNotFoundError).
  - repeat constructor. by eexists.
  - reflexivity.
  - reflexivity.
Defined.

Lemma run_empty_files_witness :
  run PyFloat.sum_plain empty_then_full ["empty.csv"; "empty.csv"]%string
    "performance" = Uncaught IndexError.
Proof.
  apply (run_empty_files PyFloat.sum_plain empty_then_full
           ["empty.csv"; "empty.csv"]%string).
  repeat constructor.
Defined.

(** ** Paths [CSVReader.read] opens *)

Lemma substring_all s : substring 0 (String.length s) s = s.
Proof. induction s as [|c s IH]; simpl; [done|]. by rewrite IH. Qed.

Lemma substring_after pre s :
  substring (String.length pre) (String.length s) (pre ++ s) = s.
Proof. induction pre as [|c pre IH]; simpl; [apply substring_all|done]. Qed.

Lemma string_length_app (s1 s2 : string) :
  String.length (s1 ++ s2) = (String.length s1 + String.length s2)%nat.
Proof. induction s1 as [|c s1 IH]; simpl; [done|]. by rewrite IH. Qed.

Lemma substring_suffix s i :
  (i ≤ String.length s)%nat →
  ∃ pre, s = (pre ++ substring i (String.length s - i) s)%string.
Proof.
  revert i. induction s as [|c s IH]; intros i Hi; simpl in *.
  - exists ""%string. by destruct i.
  - destruct i as [|i].
    + exists ""%string. simpl. by rewrite substring_all.
    + assert (i ≤ String.length s)%nat as Hi' by lia.
      destruct (IH i Hi') as [pre Hpre].
      exists (String c pre). simpl. by rewrite <- Hpre.
Qed.

Lemma endswith_spec s suffix :
  endswith s suffix = true ↔ ∃ pre, s = (pre ++ suffix)%string.
Proof.
  unfold endswith. rewrite andb_true_iff, Nat.leb_le, String.eqb_eq. split.
  - intros [Hle Hsub].
    assert (String.length s - String.length suffix ≤ String.length s)%nat as Hi by lia.
    destruct (substring_suffix s _ Hi) as [pre Hpre].
    exists pre.
    replace (String.length s - (String.length s - String.length suffix))%nat
      with (String.length suffix) in Hpre by lia.
    by rewrite Hsub in Hpre.
  - intros [pre ->]. rewrite string_length_app. split; [lia|].
    replace (String.length pre + String.length suffix - String.length suffix)%nat
      with (String.length pre) by lia.
    apply substring_after.
Qed.

(** X17. [CSVReader.read] opens a file exactly when the path is some stem,
    possibly empty, followed by [.csv] in lower case; it then opens that
    path and no other. *)
Theorem read_opens_iff_csv fs file_path :
  (read fs file_path).2 = [Open file_path] ↔
  ∃ stem, file_path = (stem ++ ".csv")%string.
Proof.
  rewrite <- endswith_spec. unfold read.
  destruct (endswith file_path ".csv"); simpl; split; done.
Qed.

(** ** Order of the groups *)

Lemma elem_of_first_occurrences x l : x ∈ first_occurrences l ↔ x ∈ l.
Proof.
  induction l as [|y l IH]; simpl; [done|].
  rewrite !elem_of_cons, list_elem_of_filter, IH.
  destruct (decide (x = y)); tauto.
Qed.

Lemma filter_not_in_nil (l : list string) : filter (λ y, y ∉ ([] : list string)) l = l.
Proof.
  induction l as [|y l IH]; [done|].
  rewrite filter_cons_True by (by intros ?%elem_of_nil). by rewrite IH.
Qed.

Lemma first_occurrences_app l1 l2 :
  first_occurrences (l1 ++ l2) =
  first_occurrences l1 ++ filter (λ y, y ∉ l1) (first_occurrences l2).
Proof.
  induction l1 as [|x l1 IH]; simpl.
  - by rewrite filter_not_in_nil.
  - f_equal. rewrite IH, filter_app, list_filter_filter. f_equal.
    apply list_filter_iff. intros y. rewrite not_elem_of_cons. tauto.
Qed.

(** ** Rows of equal printed average *)

Lemma ltb_irrefl x : PyFloat.ltb x x = false.
Proof.
  destruct (PyFloat.ltb x x) eqn:E; [|done].
  pose proof (ltb_asym _ _ E). congruence.
Qed.

Section Stable.
Context {A : Type} (P : PyFloat.float * A → Prop) `{!∀ e, Decision (P e)}.

Lemma insert_desc_filter x l :
  (∀ y, y ∈ l → P x → P y → PyFloat.ltb x.1 y.1 = false) →
  filter P (insert_desc x l) = filter P (x :: l).
Proof.
  induction l as [|y l IH]; intros Hx; simpl; [done|].
  destruct (PyFloat.ltb x.1 y.1) eqn:Hlt; [|done].
  assert (filter P (insert_desc x l) = filter P (x :: l)) as IH'.
  { apply IH. intros z Hz. apply Hx. by right. }
  assert (¬ (P x ∧ P y)) as Hnot.
  { intros [HPx HPy]. rewrite (Hx y) in Hlt; [done|by left|done|done]. }
  rewrite (filter_cons P y), IH', !(filter_cons P x), (filter_cons P y).
  destruct (decide (P x)), (decide (P y)); try done. tauto.
Qed.

(** The sort keeps the order of rows none of which is less than
    another. *)
Lemma sort_desc_filter l :
  (∀ x y, x ∈ l → y ∈ l → P x → P y → PyFloat.ltb x.1 y.1 = false) →
  filter P (sort_desc l) = filter P l.
Proof.
  induction l as [|x l IH]; intros Hl; simpl; [done|]. fold (sort_desc l).
  rewrite insert_desc_filter.
  - rewrite !(filter_cons P x), IH; [done|].
    intros y z Hy Hz. apply Hl; by right.
  - intros y Hy. rewrite sort_desc_perm in Hy. apply Hl; [by left|by right].
Qed.

End Stable.


(** * The report over Python's [float] and [list.sort] *)

(** ** The ASCII reading is lawful *)

Lemma insert_desc_fmap {A A'} (f : A → A') x (l : list (PyFloat.float * A)) :
  insert_desc (prod_map id f x) (prod_map id f <$> l) =
  prod_map id f <$> insert_desc x l.
Proof.
  induction l as [|y l IH]; csimpl; [done|].
  destruct x as [kx ax], y as [ky ay]; simpl in *.
  destruct (PyFloat.ltb kx ky); csimpl; [|done]. by rewrite IH.
Qed.

Lemma sort_desc_fmap {A A'} (f : A → A') (l : list (PyFloat.float * A)) :
  sort_desc (prod_map id f <$> l) = prod_map id f <$> sort_desc l.
Proof.
  induction l as [|x l IH]; csimpl; [done|]. fold (sort_desc l).
  fold (sort_desc (prod_map id f <$> l)). by rewrite IH, insert_desc_fmap.
Qed.

Lemma ascii_lawful : lawful ascii_builtins.
Proof.
  split; [done|]. split; [intros A l; apply sort_desc_perm|].
  split; [done|]. intros A A' f l. apply sort_desc_fmap.
Qed.

Lemma performance_ascii fsum data :
  performance fsum data = Report.performance ascii_builtins fsum data.
Proof. reflexivity. Qed.

Lemma run_ascii fsum fs files report :
  run fsum fs files report = Main.run ascii_builtins fsum fs files report.
Proof. reflexivity. Qed.

(** ** Grouping *)

Section Grouping.
Context (B : Builtins).

Lemma py_no_observation pos_idx perf_idx k (rows : list Row) :
  k ∉ omap (λ row : Row, row !! pos_idx) rows →
  omap (Report.observation B pos_idx perf_idx k) rows = [].
Proof.
  induction rows as [|row rows IH]; simpl; [done|].
  unfold Report.observation at 1.
  destruct (row !! pos_idx) as [p|] eqn:Hp; simpl; [|by auto].
  rewrite not_elem_of_cons. intros [Hne Hk].
  destruct (row !! perf_idx) as [cell|]; simpl; [|by auto].
  destruct (String.eqb_spec p k); [congruence|by auto].
Qed.

Lemma py_observation_eq pos_idx perf_idx k (row : Row) p cell :
  row !! pos_idx = Some p → row !! perf_idx = Some cell →
  Report.observation B pos_idx perf_idx k row =
    if String.eqb p k then py_float B cell else None.
Proof. intros Hp Hc. unfold Report.observation, Row in *. by rewrite Hp, Hc. Qed.

Lemma py_grouped_nil pos_idx perf_idx : Report.grouped B pos_idx perf_idx [] [].
Proof.
  split; [constructor|]. split; [done|]. by intros k vs ?%elem_of_nil.
Qed.

Lemma py_group_row_grouped pos_idx perf_idx done d row :
  Report.grouped B pos_idx perf_idx done d → Report.valid_row B pos_idx perf_idx row = true →
  ∃ d', Report.group_row B pos_idx perf_idx d row = Ok d' ∧
        Report.grouped B pos_idx perf_idx (done ++ [row]) d'.
Proof.
  intros (Hnd & Hkeys & Hvals). unfold Report.valid_row, Row in *.
  destruct (row !! pos_idx) as [p|] eqn:Hp; [|done].
  destruct (row !! perf_idx) as [cell|] eqn:Hc; [|done].
  intros [x Hx]%bool_decide_eq_true.
  unfold Report.group_row, getitem, Report.float_of. rewrite Hp, Hc. simpl. rewrite Hx. simpl.
  eexists. split; [done|].
  set (d1 := if negb (dict_mem p d) then dict_set p [] d else d).
  assert (NoDup d1.*1 ∧ (∀ k, k ∈ d1.*1 ↔ k ∈ d.*1 ∨ k = p) ∧
          (∀ k vs, (k, vs) ∈ d1 →
             vs = omap (Report.observation B pos_idx perf_idx k) done ∧ (k ≠ p → vs ≠ [])))
    as (Hnd1 & Hkeys1 & Hvals1).
  { subst d1. destruct (dict_mem p d) eqn:Hmem; simpl.
    - apply dict_mem_spec in Hmem. split; [done|].
      split; [intros k; split; [auto|by intros [?| ->]]|].
      intros k vs Hin. by destruct (Hvals k vs Hin).
    - assert (p ∉ d.*1) as Hfresh.
      { intros Hin%dict_mem_spec. congruence. }
      rewrite (dict_set_fresh _ _ _ Hfresh), fmap_app. simpl. split; [|split].
      + apply NoDup_app. split; [done|]. split; [|apply NoDup_singleton].
        intros k Hk ->%list_elem_of_singleton. done.
      + intros k. by rewrite elem_of_app, list_elem_of_singleton.
      + intros k vs [Hin|[= -> ->]%list_elem_of_singleton]%elem_of_app.
        * destruct (Hvals k vs Hin). done.
        * split; [|done]. symmetry. apply py_no_observation. by rewrite <- Hkeys. }
  assert (∀ k, omap (Report.observation B pos_idx perf_idx k) (done ++ [row]) =
    omap (Report.observation B pos_idx perf_idx k) done ++ (if String.eqb p k then [x] else []))
    as Hobs.
  { intros k. rewrite omap_app. f_equal. simpl.
    rewrite (py_observation_eq _ _ _ _ _ _ Hp Hc).
    destruct (String.eqb p k); [by rewrite Hx|done]. }
  split; [|split].
  - by rewrite dict_append_keys.
  - intros k. rewrite dict_append_keys, Hkeys1, omap_app, elem_of_app. simpl.
    unfold Row in *. rewrite Hp, list_elem_of_singleton, Hkeys. done.
  - intros k vs Hin. rewrite Hobs.
    destruct (elem_of_dict_append _ _ _ _ _ Hnd1 Hin) as [[Hne Hin1]|(-> & vs0 & Hin1 & ->)].
    + destruct (Hvals1 _ _ Hin1) as [-> Hnon].
      destruct (String.eqb_spec p k); [congruence|].
      rewrite app_nil_r. auto.
    + destruct (Hvals1 _ _ Hin1) as [-> _]. rewrite String.eqb_refl.
      split; [done|]. by destruct (omap (Report.observation B pos_idx perf_idx p) done).
Qed.

Lemma py_group_rows_grouped pos_idx perf_idx rows done d :
  Report.grouped B pos_idx perf_idx done d →
  forallb (Report.valid_row B pos_idx perf_idx) rows = true →
  ∃ d', foldM_result (Report.group_row B pos_idx perf_idx) d rows = Ok d' ∧
        Report.grouped B pos_idx perf_idx (done ++ rows) d'.
Proof.
  revert done d. induction rows as [|row rows IH]; intros done d Hd Hv; simpl in *.
  - exists d. by rewrite app_nil_r.
  - apply andb_true_iff in Hv as [Hrow Hrows].
    destruct (py_group_row_grouped _ _ _ _ _ Hd Hrow) as (d1 & -> & Hd1). simpl.
    destruct (IH _ _ Hd1 Hrows) as (d' & -> & Hd').
    exists d'. split; [done|]. by rewrite <- app_assoc in Hd'.
Qed.

Lemma py_group_row_invalid pos_idx perf_idx d (row : Row) :
  Report.valid_row B pos_idx perf_idx row = false →
  ∃ e, Report.group_row B pos_idx perf_idx d row = Raise e ∧
       match row !! pos_idx, row !! perf_idx with
       | Some _, Some cell => e = FloatValueError cell ∧ py_float B cell = None
       | _, _ => e = IndexError
       end.
Proof.
  intros Hv. unfold Report.valid_row, Report.group_row, getitem, Report.float_of, Row in *.
  destruct (row !! pos_idx) as [p|]; simpl; [|by eauto].
  destruct (row !! perf_idx) as [cell|]; simpl; [|by eauto].
  destruct (py_float B cell) as [x|] eqn:Hx; simpl; [|by eauto].
  apply bool_decide_eq_false in Hv. destruct Hv. eauto.
Qed.

Lemma py_group_rows_first_invalid pos_idx perf_idx good bad rest e :
  forallb (Report.valid_row B pos_idx perf_idx) good = true →
  (∀ d, Report.group_row B pos_idx perf_idx d bad = Raise e) →
  foldM_result (Report.group_row B pos_idx perf_idx) [] (good ++ bad :: rest) = Raise e.
Proof.
  intros Hgood Hbad. rewrite foldM_result_app.
  destruct (py_group_rows_grouped _ _ good [] [] (py_grouped_nil _ _) Hgood) as (d & -> & _).
  simpl. by rewrite Hbad.
Qed.

Lemma py_group_row_keys pos_idx perf_idx d (row : Row) d' :
  Report.group_row B pos_idx perf_idx d row = Ok d' →
  ∃ p, row !! pos_idx = Some p ∧
       d'.*1 = if decide (p ∈ d.*1) then d.*1 else d.*1 ++ [p].
Proof.
  unfold Report.group_row, getitem, Report.float_of, Row in *.
  destruct (row !! pos_idx) as [p|]; simpl; [|done].
  destruct (row !! perf_idx) as [cell|]; simpl; [|done].
  destruct (py_float B cell) as [x|]; simpl; [|done].
  intros [= <-]. exists p. split; [done|]. rewrite dict_append_keys.
  destruct (dict_mem p d) eqn:Hmem; simpl.
  - apply dict_mem_spec in Hmem. by rewrite decide_True.
  - assert (p ∉ d.*1) as Hfresh by (intros ?%dict_mem_spec; congruence).
    by rewrite decide_False, (dict_set_fresh _ _ _ Hfresh), fmap_app.
Qed.

Lemma py_group_rows_keys pos_idx perf_idx (rows : list Row) d0 d :
  foldM_result (Report.group_row B pos_idx perf_idx) d0 rows = Ok d →
  d.*1 = d0.*1 ++
    filter (λ y, y ∉ d0.*1)
      (first_occurrences (omap (λ row : Row, row !! pos_idx) rows)).
Proof.
  revert d0. induction rows as [|row rows IH]; intros d0; simpl.
  - intros [= ->]. by rewrite app_nil_r.
  - destruct (Report.group_row B pos_idx perf_idx d0 row) as [d1|] eqn:Hrow; simpl; [|done].
    intros Hrest. rewrite (IH _ Hrest).
    destruct (py_group_row_keys _ _ _ _ _ Hrow) as (p & Hp & ->).
    unfold Row in *. rewrite Hp. simpl.
    destruct (decide (p ∈ d0.*1)) as [Hin|Hin].
    + rewrite filter_cons_False by tauto. f_equal.
      rewrite list_filter_filter. apply list_filter_iff. intros y.
      split; [|tauto]. intros Hy. split; [done|]. by intros ->.
    + rewrite filter_cons_True by done. rewrite <- app_assoc. simpl. do 2 f_equal.
      rewrite list_filter_filter. apply list_filter_iff. intros y.
      rewrite elem_of_app, list_elem_of_singleton. tauto.
Qed.

Lemma py_performance_indexed fsum headers rows pos_idx perf_idx :
  index_from "position" headers 0 = Some pos_idx →
  index_from "performance" headers 0 = Some perf_idx →
  Report.performance B fsum (headers :: rows) =
    perf_data ← foldM_result (Report.group_row B pos_idx perf_idx) [] rows;
    result ← mapM_result (result_row fsum) perf_data;
    result ← Report.sort_by_key B (Report.sort_key B) result;
    Ok (report_header, number_rows result).
Proof.
  intros Hpos Hperf. unfold Report.performance, index, getitem. simpl.
  rewrite Hpos, Hperf. simpl. by rewrite drop_0.
Qed.

Lemma py_performance_first_invalid fsum headers good bad rest pos_idx perf_idx e :
  index_from "position" headers 0 = Some pos_idx →
  index_from "performance" headers 0 = Some perf_idx →
  forallb (Report.valid_row B pos_idx perf_idx) good = true →
  (∀ d, Report.group_row B pos_idx perf_idx d bad = Raise e) →
  Report.performance B fsum (headers :: good ++ bad :: rest) = Raise e.
Proof.
  intros Hpos Hperf Hgood Hbad.
  rewrite (py_performance_indexed _ _ _ _ _ Hpos Hperf).
  by rewrite (py_group_rows_first_invalid _ _ _ _ _ _ Hgood Hbad).
Qed.

Lemma py_performance_invalid data :
  Report.valid_table B data = false →
  ∃ e, report_error e ∧ ∀ fsum, Report.performance B fsum data = Raise e.
Proof.
  destruct data as [|headers rows]; [by exists IndexError; split; [left|]|].
  unfold Report.valid_table.
  destruct (index_from "position" headers 0) as [pos_idx|] eqn:Hpos.
  2:{ intros _. eexists. split; [right; left; eauto|].
      intros fsum. unfold Report.performance, index, getitem. simpl. by rewrite Hpos. }
  destruct (index_from "performance" headers 0) as [perf_idx|] eqn:Hperf.
  2:{ intros _. eexists. split; [right; left; eauto|].
      intros fsum. unfold Report.performance, index, getitem. simpl. by rewrite Hpos, Hperf. }
  intros (good & bad & rest & -> & Hgood & Hbad)%forallb_first_false.
  assert (∃ e, report_error e ∧ ∀ d, Report.group_row B pos_idx perf_idx d bad = Raise e)
    as (e & He & Hraise).
  { destruct (py_group_row_invalid pos_idx perf_idx [] bad Hbad) as (e & _ & Hkind).
    exists e. split.
    - unfold Row in *. destruct (bad !! pos_idx); [|by left].
      destruct (bad !! perf_idx); [|by left].
      right. right. destruct Hkind as [-> _]. eauto.
    - intros d. destruct (py_group_row_invalid pos_idx perf_idx d bad Hbad) as (e' & -> & Hkind').
      f_equal. unfold Row in *. destruct (bad !! pos_idx); [|congruence].
      destruct (bad !! perf_idx); [|congruence].
      destruct Hkind as [-> _], Hkind' as [-> _]. done. }
  exists e. split; [done|]. intros fsum.
  by apply (py_performance_first_invalid _ _ _ _ _ _ _ _ Hpos Hperf Hgood).
Qed.

Lemma py_performance_ok_valid fsum data report :
  Report.performance B fsum data = Ok report → Report.valid_table B data = true.
Proof.
  intros Hok. destruct (Report.valid_table B data) eqn:Hvalid; [done|].
  destruct (py_performance_invalid data Hvalid) as (e & _ & Hraise).
  by rewrite Hraise in Hok.
Qed.

End Grouping.

(** ** The report on a valid table *)

Lemma NoDup_first_occurrences l : NoDup (first_occurrences l).
Proof.
  induction l as [|x l IH]; simpl; constructor.
  - rewrite list_elem_of_filter. tauto.
  - by apply NoDup_filter.
Qed.

Lemma length_first_occurrences l : (length (first_occurrences l) ≤ length l)%nat.
Proof.
  apply submseteq_length, NoDup_submseteq; [apply NoDup_first_occurrences|].
  intros x. by rewrite elem_of_first_occurrences.
Qed.

Section ReportOver.
Context (B : Builtins) (fsum : list PyFloat.float -> PyFloat.float).
Hypothesis HB : lawful B.

Lemma py_float_format_2f x :
  ∃ y, py_float B (PyFloat.format_2f x) = Some y ∧
       (PyFloat.is_nan x = false → PyFloat.is_nan y = false).
Proof. destruct HB as [-> _]. apply format_2f_reparse. Qed.

Lemma py_sort_key_group_row data pos :
  Report.sort_key B (Report.group_row_of B fsum data pos) =
    Ok (Report.key_of B (Report.group_row_of B fsum data pos)).
Proof.
  unfold Report.sort_key, Report.group_row_of, getitem, Report.float_of. simpl.
  by destruct (py_float_format_2f (Report.group_mean B fsum data pos)) as (y & -> & _).
Qed.

Lemma py_printed_average_group_row data rank pos :
  ∃ y, Report.printed_average B (rank :: Report.group_row_of B fsum data pos) = Some y ∧
       Report.key_of B (Report.group_row_of B fsum data pos) = y ∧
       (PyFloat.is_nan (Report.group_mean B fsum data pos) = false →
        PyFloat.is_nan y = false).
Proof.
  destruct (py_float_format_2f (Report.group_mean B fsum data pos)) as (y & Hy & Hnan).
  exists y. unfold Report.printed_average, Report.key_of, Report.group_row_of.
  simpl. by rewrite Hy.
Qed.

(** On a valid table the report is the group rows of the positions in
    order of first occurrence, sorted by [list.sort] and numbered. *)
Lemma py_performance_sorted data :
  Report.valid_table B data = true →
  Report.performance B fsum data =
    Ok (report_header,
        number_rows
          (py_sort B (Report.keyed_row B fsum data <$>
                        first_occurrences (positions data))).*2).
Proof.
  destruct data as [|headers rows]; [done|].
  unfold Report.valid_table, Report.keyed_row, positions, Report.group_row_of,
    Report.group_mean, Report.observations.
  destruct (index_from "position" headers 0) as [pos_idx|] eqn:Hpos; [|done].
  destruct (index_from "performance" headers 0) as [perf_idx|] eqn:Hperf; [|done].
  intros Hvalid. rewrite (py_performance_indexed B fsum _ _ _ _ Hpos Hperf).
  destruct (py_group_rows_grouped B pos_idx perf_idx rows [] []
              (py_grouped_nil B _ _) Hvalid)
    as (d & Hfold & Hnd & Hkeys & Hvals).
  simpl in Hvals. rewrite Hfold. simpl.
  apply py_group_rows_keys in Hfold. simpl in Hfold.
  rewrite filter_not_in_nil in Hfold. rewrite <- Hfold.
  set (row_of := λ k, [k; PyFloat.format_2f
    (PyFloat.div (fsum (omap (Report.observation B pos_idx perf_idx k) rows))
       (PyFloat.of_nat
          (length (omap (Report.observation B pos_idx perf_idx k) rows))))]).
  assert (mapM_result (result_row fsum) d = Ok (row_of <$> d.*1)) as ->.
  { rewrite <- list_fmap_compose. apply mapM_result_ok.
    intros [k vs] Hin. destruct (Hvals k vs Hin) as [-> Hne].
    unfold result_row, average, row_of. simpl.
    by destruct (omap (Report.observation B pos_idx perf_idx k) rows). }
  simpl. unfold Report.sort_by_key.
  rewrite (mapM_result_ok (Report.sort_key B) (Report.key_of B) (row_of <$> d.*1)).
  - simpl.
    change (map (Report.key_of B) (row_of <$> d.*1))
      with (Report.key_of B <$> (row_of <$> d.*1)).
    rewrite zip_fmap_self, <- list_fmap_compose. done.
  - intros a (k & -> & _)%list_elem_of_fmap.
    pose proof (py_sort_key_group_row (headers :: rows) k) as Hk.
    unfold Report.group_row_of, Report.group_mean, Report.observations in Hk.
    by rewrite Hpos, Hperf in Hk.
Qed.

(** The shape of the report on a valid table: its rows are the group rows
    of the distinct positions, numbered. *)
Lemma py_performance_valid data :
  Report.valid_table B data = true →
  ∃ keys sorted,
    NoDup keys ∧ (∀ k, k ∈ keys ↔ k ∈ positions data) ∧
    (length keys ≤ length (positions data))%nat ∧
    Report.performance B fsum data = Ok (report_header, number_rows sorted) ∧
    sorted ≡ₚ Report.group_row_of B fsum data <$> keys.
Proof.
  intros Hvalid. rewrite (py_performance_sorted data Hvalid).
  exists (first_occurrences (positions data)). eexists.
  split; [apply NoDup_first_occurrences|].
  split; [intros k; apply elem_of_first_occurrences|].
  split; [apply length_first_occurrences|]. split; [done|].
  destruct HB as (_ & Hperm & _). rewrite Hperm, <- list_fmap_compose. done.
Qed.

Lemma py_no_nan_mean_spec data pos :
  Report.no_nan_mean B fsum data = true → pos ∈ positions data →
  PyFloat.is_nan (Report.group_mean B fsum data pos) = false.
Proof.
  unfold Report.no_nan_mean. rewrite forallb_forall. intros H Hpos%list_elem_of_In.
  by apply negb_true_iff, H.
Qed.

(** Without a NaN mean, [list.sort] sorts the group rows as the stable
    descending sort does, and the report is [report_of]. *)
Lemma py_sort_no_nan data :
  Report.no_nan_mean B fsum data = true →
  py_sort B (Report.keyed_row B fsum data <$> first_occurrences (positions data)) =
  sort_desc (Report.keyed_row B fsum data <$> first_occurrences (positions data)).
Proof.
  intros Hnan. destruct HB as (_ & _ & Hsort & _). apply Hsort.
  apply Forall_fmap, Forall_forall. intros pos Hpos.
  rewrite elem_of_first_occurrences in Hpos.
  destruct (py_printed_average_group_row data ""%string pos) as (y & _ & Hy & Hnany).
  change (PyFloat.is_nan (Report.key_of B (Report.group_row_of B fsum data pos)) = false).
  rewrite Hy. by apply Hnany, py_no_nan_mean_spec.
Qed.

Lemma py_performance_report_of data :
  Report.valid_table B data = true → Report.no_nan_mean B fsum data = true →
  Report.performance B fsum data = Ok (Report.report_of B fsum data).
Proof.
  intros Hvalid Hnan. rewrite (py_performance_sorted data Hvalid).
  by rewrite (py_sort_no_nan data Hnan).
Qed.

End ReportOver.

(** ** A reading of [float] beyond ASCII *)

Lemma format_2f_not_arabic x : String.eqb (PyFloat.format_2f x) arabic_cell = false.
Proof.
  apply String.eqb_neq. intros E.
  destruct (PyFloat.is_finite x) eqn:Hfin.
  - destruct (format_2f_chars x Hfin) as (neg & c & ds & a & b & Hs & Hds & _).
    rewrite E in Hs. inversion Hds as [|? ? Hc _]; subst.
    destruct neg; simpl in Hs; [discriminate Hs|].
    injection Hs as <-. discriminate Hc.
  - destruct (format_2f_not_finite x Hfin) as [H|[H|H]]; rewrite H in E; discriminate E.
Qed.

Lemma arabic_lawful : lawful arabic_builtins.
Proof.
  split; [intros x; simpl; by rewrite format_2f_not_arabic|].
  split; [intros A l; apply sort_desc_perm|].
  split; [done|]. intros A A' f l. apply sort_desc_fmap.
Qed.

Example performance_arabic :
  Report.performance arabic_builtins PyFloat.sum_plain arabic_data =
    Ok (report_header, [["1"; "A"; "4.50"]]%string).
Proof. vm_compute. reflexivity. Qed.

(** ** Ranks *)

Lemma to_uint_succ_no_leading_zero n u : Nat.to_uint (S n) ≠ Decimal.D0 u.
Proof.
  intros E.
  pose proof (DecimalNat.Unsigned.of_to (S n)) as Hof.
  pose proof (DecimalNat.Unsigned.to_of (Nat.to_uint (S n))) as Hnorm.
  rewrite Hof, E in Hnorm.
  destruct (Decimal.nzhead (Decimal.D0 u)) eqn:Hz.
  1:{ apply DecimalFacts.unorm_0 in Hz. rewrite Hz in Hnorm. rewrite Hnorm in E.
      rewrite E in Hof. discriminate Hof. }
  all: rewrite DecimalFacts.unorm_nzhead in Hnorm by (rewrite Hz; discriminate).
  all: by apply (DecimalFacts.nzhead_nonzero (Decimal.D0 u) u).
Qed.

Lemma str_of_nat_succ_head n : String.get 0 (str_of_nat (S n)) ≠ Some "0"%char.
Proof.
  unfold str_of_nat. pose proof (to_uint_succ_no_leading_zero n) as Hd.
  pose proof (DecimalNat.Unsigned.of_to (S n)) as Hof.
  destruct (Nat.to_uint (S n)) as [|u|u|u|u|u|u|u|u|u|u]; simpl;
    [discriminate Hof|by destruct (Hd u)|discriminate..].
Qed.

(** * The report: what it returns *)

(** C1, amended. On a valid table where no group mean is NaN, the report
    returns rows in descending order of the printed average: between
    neighbours, the number [float] reads from the later row's average cell
    is at most the number it reads from the earlier row's. Valid is valid
    for [float] as the interpreter has it: [B] is any lawful reading of
    the built-ins. *)
Theorem performance_sorted_by_printed_average B fsum data :
  lawful B →
  Report.valid_table B data = true → Report.no_nan_mean B fsum data = true →
  ∃ rows, Report.performance B fsum data = Ok (report_header, rows) ∧
    ∀ i r1 r2, rows !! i = Some r1 → rows !! S i = Some r2 →
      ∃ k1 k2, Report.printed_average B r1 = Some k1 ∧
               Report.printed_average B r2 = Some k2 ∧
               PyFloat.leb k2 k1 = true.
Proof.
  intros HB Hvalid Hnan.
  rewrite (py_performance_report_of B fsum HB data Hvalid Hnan). unfold Report.report_of.
  set (U := Report.keyed_row B fsum data <$> first_occurrences (positions data)).
  eexists. split; [done|].
  intros i r1 r2 (a & Ha & ->)%number_rows_lookup (b & Hb & ->)%number_rows_lookup.
  apply list_lookup_fmap_Some in Ha as (x & -> & Hx).
  apply list_lookup_fmap_Some in Hb as (y & -> & Hy).
  pose proof (sort_desc_descending U i x y Hx Hy) as Hdesc.
  apply list_elem_of_lookup_2 in Hx, Hy. rewrite sort_desc_perm in Hx, Hy.
  apply list_elem_of_fmap in Hx as (kx & -> & Hkx), Hy as (ky & -> & Hky).
  rewrite elem_of_first_occurrences in Hkx, Hky.
  destruct (py_printed_average_group_row B fsum HB data (str_of_nat (i + 1)) kx)
    as (yx & Hyx & Hkeyx & Hnanx).
  destruct (py_printed_average_group_row B fsum HB data (str_of_nat (S i + 1)) ky)
    as (yy & Hyy & Hkeyy & Hnany).
  exists yx, yy. split; [done|]. split; [done|].
  change (PyFloat.ltb (Report.key_of B (Report.group_row_of B fsum data kx))
            (Report.key_of B (Report.group_row_of B fsum data ky)) = false) in Hdesc.
  rewrite Hkeyx, Hkeyy in Hdesc.
  apply not_ltb_leb; [| |done].
  - by apply Hnanx, py_no_nan_mean_spec.
  - by apply Hnany, py_no_nan_mean_spec.
Qed.

Lemma performance_sorted_by_printed_average_witness :
  lawful ascii_builtins ∧
  Report.valid_table ascii_builtins sample_data = true ∧
  Report.no_nan_mean ascii_builtins PyFloat.sum_plain sample_data = true ∧
  ∃ rows,
    Report.performance ascii_builtins PyFloat.sum_plain sample_data =
      Ok (report_header, rows) ∧
    ∀ i r1 r2, rows !! i = Some r1 → rows !! S i = Some r2 →
      ∃ k1 k2, Report.printed_average ascii_builtins r1 = Some k1 ∧
               Report.printed_average ascii_builtins r2 = Some k2 ∧
               PyFloat.leb k2 k1 = true.
Proof.
  split; [exact ascii_lawful|]. split; [reflexivity|]. split; [vm_compute; reflexivity|].
  apply (performance_sorted_by_printed_average ascii_builtins PyFloat.sum_plain
           sample_data); [exact ascii_lawful|reflexivity|vm_compute; reflexivity].
Defined.

(** C3, amended. On a valid table the report returns, and every row is a
    rank, a position of the table and the double-precision mean of that
    position's observations (float sum over float count) printed by
    [format(mean, ".2f")]; that cell is in fixed point with two decimals
    when the mean is finite, and one of the words inf, -inf, nan
    otherwise. Valid is valid for [float] as the interpreter has it: [B] is
    any lawful reading of the built-ins. *)
Theorem average_cell_is_formatted_mean B fsum data :
  lawful B → Report.valid_table B data = true →
  ∃ rows, Report.performance B fsum data = Ok (report_header, rows) ∧
    ∀ row, row ∈ rows →
      ∃ rank pos,
        pos ∈ positions data ∧
        row = [rank; pos; PyFloat.format_2f (Report.group_mean B fsum data pos)] ∧
        if PyFloat.is_finite (Report.group_mean B fsum data pos)
        then is_fixed_2 (PyFloat.format_2f (Report.group_mean B fsum data pos)) = true
        else PyFloat.format_2f (Report.group_mean B fsum data pos)
               ∈ ["inf"; "-inf"; "nan"]%string.
Proof.
  intros HB Hvalid.
  destruct (py_performance_valid B fsum HB data Hvalid)
    as (keys & sorted & _ & Hkeys & _ & Hperf & Hperm).
  exists (number_rows sorted). split; [done|].
  intros row (rank & a & Ha & ->)%elem_of_number_rows.
  rewrite Hperm in Ha. apply list_elem_of_fmap in Ha as (pos & -> & Hpos).
  exists rank, pos. split; [by apply Hkeys|]. split; [done|].
  destruct (PyFloat.is_finite (Report.group_mean B fsum data pos)) eqn:Hfin.
  - by apply format_2f_fixed.
  - destruct (format_2f_not_finite _ Hfin) as [-> |[-> | ->]].
    + by left.
    + right. by left.
    + right. right. by left.
Qed.

Lemma average_cell_is_formatted_mean_witness :
  lawful arabic_builtins ∧ Report.valid_table arabic_builtins arabic_data = true ∧
  ∃ rows,
    Report.performance arabic_builtins PyFloat.sum_plain arabic_data =
      Ok (report_header, rows) ∧
    ∀ row, row ∈ rows →
      ∃ rank pos,
        pos ∈ positions arabic_data ∧
        row = [rank; pos;
               PyFloat.format_2f
                 (Report.group_mean arabic_builtins PyFloat.sum_plain arabic_data pos)] ∧
        if PyFloat.is_finite
             (Report.group_mean arabic_builtins PyFloat.sum_plain arabic_data pos)
        then is_fixed_2
               (PyFloat.format_2f
                  (Report.group_mean arabic_builtins PyFloat.sum_plain arabic_data pos))
             = true
        else PyFloat.format_2f
               (Report.group_mean arabic_builtins PyFloat.sum_plain arabic_data pos)
               ∈ ["inf"; "-inf"; "nan"]%string.
Proof.
  split; [exact arabic_lawful|]. split; [reflexivity|].
  apply (average_cell_is_formatted_mean arabic_builtins PyFloat.sum_plain arabic_data);
    [exact arabic_lawful|reflexivity].
Defined.

(** C4. On a valid table the report returns exactly one row for each
    distinct value of the position column of the data rows, and no more
    rows than there are data rows. Valid is valid for [float] as the
    interpreter has it: [B] is any lawful reading of the built-ins. *)
Theorem one_row_per_position B fsum data :
  lawful B → Report.valid_table B data = true →
  ∃ rows ps,
    Report.performance B fsum data = Ok (report_header, rows) ∧
    (λ row : list string, row !! 1%nat) <$> rows = Some <$> ps ∧
    NoDup ps ∧ (∀ pos, pos ∈ ps ↔ pos ∈ positions data) ∧
    (length rows ≤ length (drop 1 data))%nat.
Proof.
  intros HB Hvalid.
  destruct (py_performance_valid B fsum HB data Hvalid)
    as (keys & sorted & Hnd & Hkeys & Hlen & Hperf & Hperm).
  set (first := λ a : list string, default ""%string (head a)).
  assert (first <$> sorted ≡ₚ keys) as Hps.
  { rewrite Hperm, <- list_fmap_compose. by rewrite <- (list_fmap_id keys) at 2. }
  exists (number_rows sorted), (first <$> sorted).
  split; [done|]. split; [|split; [|split]].
  - apply list_eq. intros i. rewrite !list_lookup_fmap.
    unfold number_rows. rewrite list_lookup_imap.
    destruct (sorted !! i) as [a|] eqn:Ha; simpl; [|done].
    apply list_elem_of_lookup_2 in Ha. rewrite Hperm in Ha.
    by apply list_elem_of_fmap in Ha as (pos & -> & _).
  - by rewrite Hps.
  - intros pos. by rewrite Hps.
  - unfold number_rows. rewrite length_imap.
    rewrite <- (length_fmap first), Hps.
    etrans; [exact Hlen|apply length_positions].
Qed.

Lemma one_row_per_position_witness :
  lawful ascii_builtins ∧ Report.valid_table ascii_builtins sample_data = true ∧
  ∃ rows ps,
    Report.performance ascii_builtins PyFloat.sum_plain sample_data =
      Ok (report_header, rows) ∧
    (λ row : list string, row !! 1%nat) <$> rows = Some <$> ps ∧
    NoDup ps ∧ (∀ pos, pos ∈ ps ↔ pos ∈ positions sample_data) ∧
    (length rows ≤ length (drop 1 sample_data))%nat.
Proof.
  split; [exact ascii_lawful|]. split; [reflexivity|].
  apply (one_row_per_position ascii_builtins PyFloat.sum_plain sample_data);
    [exact ascii_lawful|reflexivity].
Defined.

(** X1. The report returns a result exactly on the valid tables: a header
    with both columns, every data row reaching both, every performance cell
    accepted by [float]. *)
Theorem performance_ok_iff_valid B fsum data :
  lawful B →
  (∃ report, Report.performance B fsum data = Ok report) ↔
  Report.valid_table B data = true.
Proof.
  intros HB. split.
  - intros [report Hok]. by eapply py_performance_ok_valid.
  - intros Hvalid. rewrite (py_performance_sorted B fsum HB data Hvalid). eauto.
Qed.

Lemma performance_ok_iff_valid_witness :
  lawful arabic_builtins ∧
  ((∃ report,
      Report.performance arabic_builtins PyFloat.sum_plain arabic_data = Ok report) ↔
   Report.valid_table arabic_builtins arabic_data = true).
Proof.
  split; [exact arabic_lawful|].
  apply (performance_ok_iff_valid arabic_builtins PyFloat.sum_plain arabic_data).
  exact arabic_lawful.
Defined.

(** X2. Whenever the report returns, its header is [№, position,
    performance], every row has three cells, and the first cell of the row
    at index [i] is [str(i + 1)], the decimal numeral of [i + 1] without a
    leading zero: the ranks run 1, 2, ..., N. *)
Theorem performance_ranks B fsum data headers rows :
  lawful B →
  Report.performance B fsum data = Ok (headers, rows) →
  headers = report_header ∧
  ∀ i row, rows !! i = Some row →
    ∃ pos cell,
      row = [str_of_nat (S i); pos; cell] ∧
      nat_of_str (str_of_nat (S i)) = Some (S i) ∧
      String.get 0 (str_of_nat (S i)) ≠ Some "0"%char.
Proof.
  intros HB Hok.
  pose proof (py_performance_ok_valid _ _ _ _ Hok) as Hvalid.
  destruct (py_performance_valid B fsum HB data Hvalid)
    as (keys & sorted & _ & _ & _ & Hperf & Hperm).
  rewrite Hperf in Hok. injection Hok as <- <-. split; [done|].
  intros i row (a & Ha & ->)%number_rows_lookup.
  apply list_elem_of_lookup_2 in Ha. rewrite Hperm in Ha.
  apply list_elem_of_fmap in Ha as (pos & -> & _).
  rewrite Nat.add_1_r. eexists _, _. split; [reflexivity|].
  split; [apply nat_of_str_of_nat|apply str_of_nat_succ_head].
Qed.

Lemma performance_ranks_witness :
  lawful ascii_builtins ∧
  report_header = report_header ∧
  ∀ i row,
    [["1"; "Backend"; "4.90"]; ["2"; "Frontend"; "4.50"]]%string !! i = Some row →
    ∃ pos cell,
      row = [str_of_nat (S i); pos; cell] ∧
      nat_of_str (str_of_nat (S i)) = Some (S i) ∧
      String.get 0 (str_of_nat (S i)) ≠ Some "0"%char.
Proof.
  split; [exact ascii_lawful|].
  apply (performance_ranks ascii_builtins PyFloat.sum_plain sample_data);
    [exact ascii_lawful|vm_compute; reflexivity].
Defined.

(** X6. The first data row whose performance cell [float] rejects makes the
    report raise the [ValueError] of that cell, when every row before it is
    well formed and whatever comes after it. *)
Theorem performance_unreadable_cell B fsum headers good (bad : Row) rest
    pos_idx perf_idx p cell :
  index_from "position" headers 0 = Some pos_idx →
  index_from "performance" headers 0 = Some perf_idx →
  forallb (Report.valid_row B pos_idx perf_idx) good = true →
  bad !! pos_idx = Some p → bad !! perf_idx = Some cell →
  py_float B cell = None →
  Report.performance B fsum (headers :: good ++ bad :: rest) =
    Raise (FloatValueError cell).
Proof.
  intros Hpos Hperf Hgood Hp Hc Hx.
  apply (py_performance_first_invalid B _ _ _ _ _ _ _ _ Hpos Hperf Hgood).
  intros d. unfold Report.group_row, getitem, Report.float_of, Row in *.
  rewrite Hp, Hc. simpl. by rewrite Hx.
Qed.

Lemma performance_unreadable_cell_witness :
  Report.performance arabic_builtins PyFloat.sum_plain
    (["position"; "performance"]%string :: [["A"%string; arabic_cell]] ++
       ["B"; "not_a_number"]%string :: [["C"; "1.0"]%string]) =
    Raise (FloatValueError "not_a_number").
Proof.
  apply (performance_unreadable_cell arabic_builtins PyFloat.sum_plain
           ["position"; "performance"]%string [["A"%string; arabic_cell]]
           ["B"; "not_a_number"]%string [["C"; "1.0"]%string]
           0%nat 1%nat "B"%string); reflexivity.
Defined.

(** X15. Once the files are merged, the run for the report [performance]
    prints a table exactly when the merged table is valid, and then under
    the header [№, position, performance]. *)
Theorem run_prints_iff_valid B fsum fs files data :
  lawful B →
  merge_files fs files [] = inr data →
  (∃ rows, Main.run B fsum fs files "performance" = Printed report_header rows) ↔
  Report.valid_table B data = true.
Proof.
  intros HB Hmerge. unfold Main.run. rewrite Hmerge.
  change (Report.generate B fsum "performance" data)
    with (Report.performance B fsum data). split.
  - intros [rows Hrun].
    destruct (Report.performance B fsum data) as [[headers report_data]|e] eqn:Hperf.
    + by eapply py_performance_ok_valid.
    + by destruct (is_ValueError e).
  - intros Hvalid. rewrite (py_performance_sorted B fsum HB data Hvalid). eauto.
Qed.

Lemma run_prints_iff_valid_witness :
  lawful ascii_builtins ∧
  ((∃ rows,
      Main.run ascii_builtins PyFloat.sum_plain two_files ["a.csv"; "b.csv"]%string
        "performance" = Printed report_header rows) ↔
   Report.valid_table ascii_builtins sample_data = true).
Proof.
  split; [exact ascii_lawful|].
  apply (run_prints_iff_valid ascii_builtins PyFloat.sum_plain two_files
           ["a.csv"; "b.csv"]%string sample_data); [exact ascii_lawful|reflexivity].
Defined.

(** X18. When no group mean is NaN, the report on a table is the
    written-out report, one row for each position in order of first
    occurrence, sorted by descending printed average and numbered, exactly
    when the table is valid. *)
Theorem performance_is_report_of B fsum data :
  lawful B → Report.no_nan_mean B fsum data = true →
  Report.performance B fsum data = Ok (Report.report_of B fsum data) ↔
  Report.valid_table B data = true.
Proof.
  intros HB Hnan. split.
  - apply py_performance_ok_valid.
  - intros Hvalid. by apply py_performance_report_of.
Qed.

Lemma performance_is_report_of_witness :
  lawful ascii_builtins ∧
  Report.no_nan_mean ascii_builtins PyFloat.sum_plain late_tie_data = true ∧
  (Report.performance ascii_builtins PyFloat.sum_plain late_tie_data =
     Ok (Report.report_of ascii_builtins PyFloat.sum_plain late_tie_data) ↔
   Report.valid_table ascii_builtins late_tie_data = true).
Proof.
  split; [exact ascii_lawful|]. split; [vm_compute; reflexivity|].
  apply (performance_is_report_of ascii_builtins PyFloat.sum_plain late_tie_data);
    [exact ascii_lawful|vm_compute; reflexivity].
Defined.

(** X19. When no group mean is NaN, two positions that print the same
    average keep the order of their first occurrences: when [q] does not
    occur before some occurrence of [p] and occurs after it, the row of
    [p] comes before the row of [q] in the report. *)
Theorem performance_ties_keep_first_occurrence_order B fsum data l1 l2 p q :
  lawful B →
  Report.valid_table B data = true → Report.no_nan_mean B fsum data = true →
  positions data = l1 ++ p :: l2 → q ∉ l1 → q ∈ l2 → q ≠ p →
  PyFloat.format_2f (Report.group_mean B fsum data p) =
    PyFloat.format_2f (Report.group_mean B fsum data q) →
  ∃ rows i j ri rj,
    Report.performance B fsum data = Ok (report_header, rows) ∧ (i < j)%nat ∧
    rows !! i = Some ri ∧ rows !! j = Some rj ∧
    ri !! 1%nat = Some p ∧ rj !! 1%nat = Some q.
Proof.
  intros HB Hvalid Hnan Hpos Hq1 Hq2 Hqp Hcell.
  rewrite (py_performance_report_of B fsum HB data Hvalid Hnan).
  unfold Report.report_of.
  (* the keys hold [p] before [q] *)
  assert (∃ k1 k2 k3, first_occurrences (positions data) = k1 ++ p :: k2 ++ q :: k3)
    as (k1 & k2 & k3 & Hkeys).
  { rewrite Hpos. change (l1 ++ p :: l2) with (l1 ++ [p] ++ l2).
    rewrite app_assoc, first_occurrences_app.
    assert (p ∈ first_occurrences (l1 ++ [p])) as Hp.
    { apply elem_of_first_occurrences, elem_of_app. right. by left. }
    apply list_elem_of_split in Hp as (a & b & ->).
    assert (q ∈ filter (λ y, y ∉ l1 ++ [p]) (first_occurrences l2)) as Hq.
    { apply list_elem_of_filter. split; [|by apply elem_of_first_occurrences].
      rewrite elem_of_app, list_elem_of_singleton. tauto. }
    apply list_elem_of_split in Hq as (c & e & ->).
    exists a, (b ++ c), e. by rewrite <- !app_assoc. }
  set (c := PyFloat.format_2f (Report.group_mean B fsum data p)) in *.
  set (U := Report.keyed_row B fsum data <$> first_occurrences (positions data)).
  set (P := λ e : PyFloat.float * list string, e.2 !! 1%nat = Some c).
  (* rows printing [c] keep their order through the sort *)
  assert (filter P (sort_desc U) = filter P U) as Hstable.
  { apply sort_desc_filter.
    intros x y (kx & -> & _)%list_elem_of_fmap (ky & -> & _)%list_elem_of_fmap.
    unfold P, Report.keyed_row, Report.group_row_of, Report.key_of. simpl.
    intros [= ->] [= ->]. apply ltb_irrefl. }
  assert ([Report.keyed_row B fsum data p; Report.keyed_row B fsum data q]
            `sublist_of` sort_desc U) as Hsub.
  { etrans; [|apply (sublist_filter P)]. rewrite Hstable. subst U.
    rewrite Hkeys, fmap_app, fmap_cons, fmap_app, fmap_cons.
    rewrite filter_app, (filter_cons_True P (Report.keyed_row B fsum data p)) by done.
    rewrite filter_app, (filter_cons_True P (Report.keyed_row B fsum data q))
      by (unfold P, Report.keyed_row, Report.group_row_of; simpl; by rewrite <- Hcell).
    apply sublist_inserts_l. constructor.
    apply sublist_inserts_l. constructor. apply sublist_nil_l. }
  apply sublist_cons_l in Hsub as (s1 & s23 & Hs & Hsub).
  apply sublist_cons_l in Hsub as (s2 & s3 & -> & _).
  exists (number_rows (sort_desc U).*2), (length s1), (length s1 + S (length s2))%nat.
  eexists _, _. split; [done|]. split; [lia|].
  assert (sort_desc U !! length s1 = Some (Report.keyed_row B fsum data p)) as Hi
    by (rewrite Hs; by apply list_lookup_middle).
  assert (sort_desc U !! (length s1 + S (length s2))%nat =
          Some (Report.keyed_row B fsum data q)) as Hj.
  { rewrite Hs, lookup_app_r by lia.
    replace (length s1 + S (length s2) - length s1)%nat with (S (length s2)) by lia.
    simpl. by apply list_lookup_middle. }
  unfold number_rows. rewrite !list_lookup_imap, !list_lookup_fmap, Hi, Hj. done.
Qed.

Lemma performance_ties_keep_first_occurrence_order_witness :
  lawful ascii_builtins ∧
  ∃ rows i j ri rj,
    Report.performance ascii_builtins PyFloat.sum_plain late_tie_data =
      Ok (report_header, rows) ∧
    (i < j)%nat ∧ rows !! i = Some ri ∧ rows !! j = Some rj ∧
    ri !! 1%nat = Some "A"%string ∧ rj !! 1%nat = Some "B"%string.
Proof.
  split; [exact ascii_lawful|].
  apply (performance_ties_keep_first_occurrence_order ascii_builtins PyFloat.sum_plain
           late_tie_data ["C"%string] ["B"; "A"]%string "A" "B").
  - exact ascii_lawful.
  - reflexivity.
  - vm_compute. reflexivity.
  - reflexivity.
  - by intros [?|?%elem_of_nil]%elem_of_cons.
  - left.
  - discriminate.
  - vm_compute. reflexivity.
Defined.

(** * The report on the heap *)

(** ** Running the operations *)

Lemma heap_bind {A A'} (m : Heap.M A) (f : A → Heap.M A') h :
  (m ≫= f) h =
  match m h with
  | (Heap.Returns a, h') => f a h'
  | (Heap.Fails e, h') => (Heap.Fails e, h')
  end.
Proof. reflexivity. Qed.

Lemma heap_ret {A} (a : A) h : (mret a : Heap.M A) h = (Heap.Returns a, h).
Proof. reflexivity. Qed.

Lemma each_cons {X Y} (body : nat → X → Heap.M Y) i x xs :
  Heap.each body i (x :: xs) =
    (y ← body i x; ys ← Heap.each body (S i) xs; mret (y :: ys)).
Proof. reflexivity. Qed.

Lemma mapM_result_cons {A A'} (f : A → result A') a l :
  mapM_result f (a :: l) = (b ← f a; bs ← mapM_result f l; Ok (b :: bs)).
Proof. reflexivity. Qed.

Lemma heap_items h a xs :
  h !! a = Some (OList xs) → Heap.items (VRef a) h = (Heap.Returns xs, h).
Proof. intros Ha. unfold Heap.items. rewrite heap_bind. simpl. by rewrite Ha. Qed.

Lemma heap_entries h a es :
  h !! a = Some (ODict es) → Heap.entries (VRef a) h = (Heap.Returns es, h).
Proof. intros Ha. unfold Heap.entries. rewrite heap_bind. simpl. by rewrite Ha. Qed.

Lemma heap_list_getitem h a xs i :
  h !! a = Some (OList xs) →
  Heap.list_getitem (VRef a) i h =
    (match xs !! i with
     | Some x => Heap.Returns x
     | None => Heap.Fails (Heap.Exception IndexError)
     end, h).
Proof.
  intros Ha. unfold Heap.list_getitem. rewrite heap_bind, (heap_items _ _ _ Ha).
  by destruct (xs !! i).
Qed.

(** ** Reading from a heap that has grown *)

Lemma read_str_Some xs (row : Row) :
  mapM Heap.read_str xs = Some row ↔ xs = VStr <$> row.
Proof.
  rewrite mapM_Some. split.
  - induction 1 as [|v s xs row Hv _ IH]; [done|].
    destruct v; try discriminate Hv. injection Hv as ->. csimpl. by rewrite IH.
  - intros ->. induction row; csimpl; by constructor.
Qed.

Lemma read_row_Some h v (row : Row) :
  Heap.read_row h v = Some row ↔
  ∃ a, v = VRef a ∧ h !! a = Some (OList (VStr <$> row)).
Proof.
  unfold Heap.read_row, Heap.read_list. split.
  - destruct v as [| |a]; try done. destruct (h !! a) as [[xs|]|] eqn:Ha; try done.
    simpl. intros ->%read_str_Some. eauto.
  - intros (a & -> & ->). simpl. by apply read_str_Some.
Qed.

Lemma read_list_prefix h h' v xs :
  h `prefix_of` h' → Heap.read_list h v = Some xs → Heap.read_list h' v = Some xs.
Proof.
  intros Hpre. unfold Heap.read_list. destruct v as [| |a]; try done.
  destruct (h !! a) as [o|] eqn:Ha; [|done].
  by rewrite (prefix_lookup_Some _ _ _ _ Ha Hpre).
Qed.

Lemma read_row_prefix h h' v row :
  h `prefix_of` h' → Heap.read_row h v = Some row → Heap.read_row h' v = Some row.
Proof.
  intros Hpre. unfold Heap.read_row.
  destruct (Heap.read_list h v) as [xs|] eqn:Hxs; [|done].
  by rewrite (read_list_prefix _ _ _ _ Hpre Hxs).
Qed.

Lemma read_rows_prefix h h' xs (t : list Row) :
  h `prefix_of` h' →
  Forall2 (λ v row, Heap.read_row h v = Some row) xs t →
  Forall2 (λ v row, Heap.read_row h' v = Some row) xs t.
Proof.
  intros Hpre Hrows. eapply Forall2_impl; [exact Hrows|].
  intros v row. by apply read_row_prefix.
Qed.

Lemma read_table_Some h v (t : Table) :
  Heap.read_table h v = Some t ↔
  ∃ a xs, v = VRef a ∧ h !! a = Some (OList xs) ∧
          Forall2 (λ v row, Heap.read_row h v = Some row) xs t.
Proof.
  unfold Heap.read_table, Heap.read_list. split.
  - destruct v as [| |a]; try done. destruct (h !! a) as [[xs|]|] eqn:Ha; try done.
    simpl. intros Hm%mapM_Some. eauto.
  - intros (a & xs & -> & -> & Hrows). simpl. by apply mapM_Some.
Qed.

Lemma read_table_prefix h h' v t :
  h `prefix_of` h' → Heap.read_table h v = Some t → Heap.read_table h' v = Some t.
Proof.
  intros Hpre (a & xs & -> & Ha & Hrows)%read_table_Some. apply read_table_Some.
  exists a, xs. split; [done|]. split; [by eapply prefix_lookup_Some|].
  by eapply read_rows_prefix.
Qed.

Lemma read_report_prefix h h' out report :
  h `prefix_of` h' →
  Heap.read_report h out = Some report → Heap.read_report h' out = Some report.
Proof.
  intros Hpre. unfold Heap.read_report.
  destruct (Heap.read_row h out.1) as [hd|] eqn:Hhd; [|done].
  destruct (Heap.read_table h out.2) as [rows|] eqn:Hrows; [|done].
  rewrite (read_row_prefix _ _ _ _ Hpre Hhd). simpl.
  by rewrite (read_table_prefix _ _ _ _ Hpre Hrows).
Qed.

(** A store past a prefix leaves the prefix. *)
Lemma prefix_insert (h0 h : heap) a o :
  h0 `prefix_of` h → (length h0 ≤ a)%nat → h0 `prefix_of` <[a := o]> h.
Proof.
  intros [k ->] Ha. rewrite insert_app_r_alt by done. by eexists.
Qed.

Lemma prefix_snoc (h0 h : heap) o : h0 `prefix_of` h → h0 `prefix_of` h ++ [o].
Proof. intros Hpre. etrans; [done|]. by apply prefix_app_r. Qed.

(** ** Loops over an object that stays *)

Lemma for_each_each {X Y} (P : heap → Prop) (next : nat → Heap.M (option X))
    (body : nat → X → Heap.M Y) (all : list X) :
  (∀ h j, P h → next j h = (Heap.Returns (all !! j), h)) →
  (∀ h j x y h', P h → all !! j = Some x → body j x h = (Heap.Returns y, h') → P h') →
  ∀ xs i fuel h,
    P h → drop i all = xs → (length xs ≤ fuel)%nat →
    Heap.for_each fuel next body i h = Heap.each body i xs h.
Proof.
  intros Hnext Hbody xs. induction xs as [|x xs IH]; intros i fuel h HP Hdrop Hfuel.
  - assert (all !! i = None) as Hi.
    { apply lookup_ge_None. apply drop_nil_inv in Hdrop. lia. }
    destruct fuel; simpl; by rewrite heap_bind, (Hnext _ _ HP), Hi.
  - assert (all !! i = Some x) as Hi.
    { rewrite <- (Nat.add_0_r i), <- lookup_drop, Hdrop. done. }
    destruct fuel as [|fuel]; [simpl in Hfuel; lia|]. simpl.
    rewrite heap_bind, (Hnext _ _ HP), Hi. rewrite !heap_bind.
    destruct (body i x h) as [[y|e] h'] eqn:Hrun; [|done].
    rewrite !heap_bind, (IH (S i) fuel h'); [done| | |simpl in Hfuel; lia].
    + by eapply Hbody.
    + rewrite (drop_S all x i Hi) in Hdrop. by injection Hdrop.
Qed.

(** ** The dict of observations on the heap *)

Lemma contains_zip_keys (d : dict) (vals : list value) k :
  length vals = length d →
  existsb (λ e : string * value, String.eqb e.1 k) (zip d.*1 vals) = dict_mem k d.
Proof.
  revert vals. induction d as [|[k' xs] d IH]; intros [|v vals] Hlen;
    try done. csimpl in *. rewrite IH by lia. done.
Qed.

(** Where [d[k]] is found, and what [d[k].append(x)] does there. *)
Lemma present_entry (d : dict) (addrs : list nat) k :
  length addrs = length d → dict_mem k d = true →
  ∃ j xs al,
    d !! j = Some (k, xs) ∧ addrs !! j = Some al ∧
    Heap.get_entry k (zip d.*1 (VRef <$> addrs)) = Some (VRef al) ∧
    ∀ x, dict_append k x d = <[j := (k, xs ++ [x])]> d.
Proof.
  revert addrs. induction d as [|[k' xs] d IH]; intros [|al addrs] Hlen Hmem;
    try done. csimpl in *.
  destruct (String.eqb k' k) eqn:Hk.
  - apply String.eqb_eq in Hk as ->. by exists 0%nat, xs, al.
  - destruct (IH addrs) as (j & xs' & al' & Hj & Hal & Hget & Happ); [lia|done|].
    exists (S j), xs', al'. split; [done|]. split; [done|]. split; [done|].
    intros x. simpl. by rewrite Happ.
Qed.

Lemma absent_entry (d : dict) (addrs : list nat) k al :
  length addrs = length d → dict_mem k d = false →
  Heap.set_entry k (VRef al) (zip d.*1 (VRef <$> addrs)) =
    zip (d ++ [(k, [])]).*1 (VRef <$> (addrs ++ [al])) ∧
  dict_set k [] d = d ++ [(k, [])].
Proof.
  revert addrs. induction d as [|[k' xs] d IH]; intros [|al' addrs] Hlen Hmem;
    try done. csimpl in *.
  destruct (String.eqb k' k) eqn:Hk; [done|].
  destruct (IH addrs) as [-> ->]; [lia|done|]. done.
Qed.

Lemma dict_mem_set k (d : dict) : dict_mem k (dict_set k [] d) = true.
Proof.
  induction d as [|[k' xs] d IH]; simpl.
  - by rewrite String.eqb_refl.
  - destruct (String.eqb k' k) eqn:Hk; simpl; rewrite Hk; [done|]. exact IH.
Qed.

Section GroupingInvariant.
Context (h0 : heap) (ar ad : nat) (vs : list value).

Lemma grouping_addr_lt h d addrs al :
  grouping h0 h ar ad vs d addrs → al ∈ addrs → (ad < al < length h)%nat.
Proof.
  intros (_ & _ & _ & _ & _ & _ & Hgt & Hobj) Hal. split.
  - rewrite Forall_forall in Hgt. by apply Hgt.
  - apply list_elem_of_lookup_1 in Hal as [j Hj].
    destruct (Forall2_lookup_r _ _ _ _ _ Hobj Hj) as (p & _ & Hp).
    by apply lookup_lt_Some in Hp.
Qed.

(** [perf_data[position] = []] for a new position. *)
Lemma grouping_fresh h d addrs k :
  grouping h0 h ar ad vs d addrs → dict_mem k d = false →
  grouping h0
    (<[ad := ODict (zip (d ++ [(k, [])]).*1 (VRef <$> (addrs ++ [length h])))]>
       (h ++ [OList []]))
    ar ad vs (d ++ [(k, [])]) (addrs ++ [length h]).
Proof.
  intros Hg Hmem.
  pose proof (λ al, grouping_addr_lt h d addrs al Hg) as Hlt.
  destruct Hg as (Hpre & Har0 & Hard & Har & Had & Hnd & Hgt & Hobj).
  pose proof (lookup_lt_Some _ _ _ Har) as Harlt.
  pose proof (lookup_lt_Some _ _ _ Had) as Hadlt.
  split; [apply prefix_insert; [by apply prefix_snoc|lia]|].
  split; [done|]. split; [done|].
  split; [rewrite list_lookup_insert_ne by lia; by rewrite lookup_app_l|].
  split; [apply list_lookup_insert_eq; rewrite length_app; simpl; lia|].
  split.
  { apply NoDup_app. split; [done|]. split; [|apply NoDup_singleton].
    intros al Hal ->%list_elem_of_singleton. apply Hlt in Hal. lia. }
  split.
  { apply Forall_app. split; [done|]. by repeat constructor. }
  apply Forall2_same_length_lookup. split.
  { rewrite !length_app. simpl. by rewrite (Forall2_length _ _ _ Hobj). }
  intros i p al Hp Hal.
  apply lookup_snoc_Some in Hal as [[Hi Hal]|[-> <-]].
  - apply lookup_snoc_Some in Hp as [[_ Hp]|[Hp _]];
      [|rewrite (Forall2_length _ _ _ Hobj) in Hp; lia].
    pose proof (Hlt al (list_elem_of_lookup_2 _ _ _ Hal)).
    rewrite list_lookup_insert_ne, lookup_app_l by lia.
    by apply (Forall2_lookup_lr _ _ _ _ _ _ Hobj Hp Hal).
  - apply lookup_snoc_Some in Hp as [[Hp _]|[_ <-]];
      [rewrite (Forall2_length _ _ _ Hobj) in Hp; lia|].
    rewrite list_lookup_insert_ne by lia. by apply list_lookup_middle.
Qed.

(** [perf_data[position].append(performance)] *)
Lemma grouping_append h d addrs j k xs al x :
  grouping h0 h ar ad vs d addrs →
  d !! j = Some (k, xs) → addrs !! j = Some al →
  grouping h0 (<[al := OList ((VFloat <$> xs) ++ [VFloat x])]> h)
    ar ad vs (<[j := (k, xs ++ [x])]> d) addrs.
Proof.
  intros Hg Hj Hal.
  pose proof (λ al, grouping_addr_lt h d addrs al Hg) as Hlt.
  destruct Hg as (Hpre & Har0 & Hard & Har & Had & Hnd & Hgt & Hobj).
  pose proof (Hlt al (list_elem_of_lookup_2 _ _ _ Hal)) as Hal_lt.
  unfold dict in *.
  split; [apply prefix_insert; [done|lia]|].
  split; [done|]. split; [done|].
  split; [by rewrite list_lookup_insert_ne by lia|].
  split.
  { rewrite list_lookup_insert_ne by lia.
    rewrite list_fmap_insert. simpl.
    rewrite (list_insert_id (d.*1) j k); [done|]. by rewrite list_lookup_fmap, Hj. }
  split; [done|]. split; [done|].
  apply Forall2_same_length_lookup. split.
  { rewrite length_insert. by apply (Forall2_length _ _ _ Hobj). }
  intros i p al' Hp Hal'.
  destruct (decide (i = j)) as [->|Hij].
  - rewrite list_lookup_insert_eq in Hp by (by eapply lookup_lt_Some).
    injection Hp as <-. rewrite Hal in Hal'. injection Hal' as <-.
    rewrite list_lookup_insert_eq by lia. simpl. by rewrite fmap_app.
  - rewrite list_lookup_insert_ne in Hp by done.
    assert (al ≠ al') as Hne.
    { intros <-. apply Hij. by eapply NoDup_lookup. }
    rewrite list_lookup_insert_ne by done.
    by apply (Forall2_lookup_lr _ _ _ _ _ _ Hobj Hp Hal').
Qed.

End GroupingInvariant.

(** ** The grouping loop *)

Section GroupingLoop.
Context (B : Builtins) (h0 : heap) (ar ad : nat) (vs : list value).
Context (pos_idx perf_idx : nat).

Lemma heap_append_observation h d addrs k x :
  grouping h0 h ar ad vs d addrs → dict_mem k d = true →
  ∃ h',
    (perf ← Heap.dict_getitem (VRef ad) k; Heap.list_append perf (VFloat x)) h =
      (Heap.Returns tt, h') ∧
    grouping h0 h' ar ad vs (dict_append k x d) addrs.
Proof.
  intros Hg Hmem.
  pose proof Hg as (_ & _ & _ & _ & Had & _ & _ & Hobj).
  destruct (present_entry d addrs k) as (j & xs & al & Hj & Hal & Hget & Happ);
    [symmetry; by apply (Forall2_length _ _ _ Hobj)|done|].
  pose proof (Forall2_lookup_lr _ _ _ _ _ _ Hobj Hj Hal) as Hxs. simpl in Hxs.
  eexists. split.
  - rewrite heap_bind. unfold Heap.dict_getitem.
    rewrite heap_bind, (heap_entries _ _ _ Had), Hget. simpl.
    unfold Heap.list_append. rewrite heap_bind, (heap_items _ _ _ Hxs). done.
  - rewrite Happ. by apply grouping_append.
Qed.

(** One turn of the loop does to the heap what [group_row] does to the
    dict, and raises what it raises. *)
Lemma heap_group_row h d addrs v (row : Row) :
  grouping h0 h ar ad vs d addrs → Heap.read_row h0 v = Some row →
  match Report.group_row B pos_idx perf_idx d row with
  | Ok d' =>
      ∃ h' addrs',
        Heap.group_row B pos_idx perf_idx (VRef ad) v h = (Heap.Returns tt, h') ∧
        grouping h0 h' ar ad vs d' addrs'
  | Raise e =>
      Heap.group_row B pos_idx perf_idx (VRef ad) v h =
        (Heap.Fails (Heap.Exception e), h)
  end.
Proof.
  intros Hg (a & -> & Ha)%read_row_Some.
  pose proof Hg as (Hpre & _ & _ & _ & Had & _ & _ & Hobj).
  pose proof (prefix_lookup_Some _ _ _ _ Ha Hpre) as Hrow.
  unfold Report.group_row, Heap.group_row, getitem, Report.float_of, Row in *.
  rewrite heap_bind, (heap_list_getitem _ _ _ _ Hrow), list_lookup_fmap.
  destruct (row !! pos_idx) as [p|]; simpl; [|done].
  rewrite heap_bind, (heap_list_getitem _ _ _ _ Hrow), list_lookup_fmap.
  destruct (row !! perf_idx) as [cell|]; simpl; [|done].
  rewrite heap_bind. simpl.
  destruct (py_float B cell) as [x|]; simpl; [|done].
  assert (Heap.dict_contains (VRef ad) p h = (Heap.Returns (dict_mem p d), h))
    as Hcontains.
  { unfold Heap.dict_contains. rewrite heap_bind, (heap_entries _ _ _ Had). simpl.
    rewrite contains_zip_keys; [done|].
    rewrite length_fmap. symmetry. by apply (Forall2_length _ _ _ Hobj). }
  destruct (dict_mem p d) eqn:Hmem; simpl.
  - destruct (heap_append_observation h d addrs p x Hg Hmem) as (h' & Hrun & Hg').
    exists h', addrs. split; [|done].
    rewrite heap_bind, heap_ret, heap_bind, Hcontains, heap_bind. exact Hrun.
  - destruct (absent_entry d addrs p (length h)) as [Hset Hpure];
      [symmetry; by apply (Forall2_length _ _ _ Hobj)|done|].
    pose proof (grouping_fresh h0 ar ad vs h d addrs p Hg Hmem) as Hg1.
    destruct (heap_append_observation _ _ _ p x Hg1) as (h' & Hrun & Hg').
    { rewrite <- Hpure. apply dict_mem_set. }
    exists h', (addrs ++ [length h]). rewrite Hpure. split; [|done].
    rewrite heap_bind, heap_ret, heap_bind, Hcontains. simpl.
    rewrite heap_bind, heap_bind. simpl. unfold Heap.dict_setitem.
    rewrite heap_bind,
      (heap_entries (h ++ [OList []]) ad (zip d.*1 (VRef <$> addrs))).
    2:{ rewrite lookup_app_l; [done|by eapply lookup_lt_Some]. }
    simpl. rewrite Hset. exact Hrun.
Qed.

(** The loop does what folding [group_row] over the rows does. *)
Lemma heap_group_rows xs (rows : list Row) i h d addrs :
  grouping h0 h ar ad vs d addrs →
  Forall2 (λ v row, Heap.read_row h0 v = Some row) xs rows →
  match foldM_result (Report.group_row B pos_idx perf_idx) d rows with
  | Ok d' =>
      ∃ ys h' addrs',
        Heap.each (λ _ row, Heap.group_row B pos_idx perf_idx (VRef ad) row) i xs h =
          (Heap.Returns ys, h') ∧
        grouping h0 h' ar ad vs d' addrs'
  | Raise e =>
      ∃ h',
        Heap.each (λ _ row, Heap.group_row B pos_idx perf_idx (VRef ad) row) i xs h =
          (Heap.Fails (Heap.Exception e), h') ∧
        h0 `prefix_of` h'
  end.
Proof.
  intros Hg Hrows. revert i h d addrs Hg.
  induction Hrows as [|v row xs rows Hv _ IH]; intros i h d addrs Hg; simpl.
  - by exists [], h, addrs.
  - pose proof (heap_group_row h d addrs v row Hg Hv) as Hstep.
    destruct (Report.group_row B pos_idx perf_idx d row) as [d1|e]; simpl.
    + destruct Hstep as (h1 & addrs1 & Hrun & Hg1).
      specialize (IH (S i) h1 d1 addrs1 Hg1).
      rewrite heap_bind, Hrun, heap_bind.
      destruct (foldM_result (Report.group_row B pos_idx perf_idx) d1 rows) as [d'|e].
      * destruct IH as (ys & h' & addrs' & -> & Hg'). by exists (tt :: ys), h', addrs'.
      * destruct IH as (h' & -> & Hpre). by exists h'.
    + exists h. rewrite heap_bind, Hstep. split; [done|]. by destruct Hg.
Qed.

(** [for row in rows], from a heap where [rows] and an empty dict have
    just been allocated. *)
Lemma heap_for_rows (rows : list Row) h :
  grouping h0 h ar ad vs [] [] →
  Forall2 (λ v row, Heap.read_row h0 v = Some row) vs rows →
  match foldM_result (Report.group_row B pos_idx perf_idx) [] rows with
  | Ok d' =>
      ∃ ys h' addrs',
        Heap.for_list (VRef ar)
          (λ _ row, Heap.group_row B pos_idx perf_idx (VRef ad) row) h =
          (Heap.Returns ys, h') ∧
        grouping h0 h' ar ad vs d' addrs'
  | Raise e =>
      ∃ h',
        Heap.for_list (VRef ar)
          (λ _ row, Heap.group_row B pos_idx perf_idx (VRef ad) row) h =
          (Heap.Fails (Heap.Exception e), h') ∧
        h0 `prefix_of` h'
  end.
Proof.
  intros Hg Hrows.
  pose proof Hg as (_ & _ & _ & Har & _).
  unfold Heap.for_list, Heap.list_len.
  rewrite !heap_bind, (heap_items _ _ _ Har). simpl.
  assert (Heap.for_each (length vs) (Heap.list_next (VRef ar))
            (λ _ row, Heap.group_row B pos_idx perf_idx (VRef ad) row) 0 h =
          Heap.each (λ _ row, Heap.group_row B pos_idx perf_idx (VRef ad) row) 0 vs h)
    as ->; [|exact (heap_group_rows vs rows 0%nat h [] [] Hg Hrows)].
  apply (for_each_each (λ h, ∃ d addrs, grouping h0 h ar ad vs d addrs) _ _ vs);
    [| |by eauto|done|done].
  - intros h1 j (d1 & addrs1 & Hg1). destruct Hg1 as (_ & _ & _ & Har1 & _).
    unfold Heap.list_next. by rewrite heap_bind, (heap_items _ _ _ Har1).
  - intros h1 j x y h' (d1 & addrs1 & Hg1) Hx Hrun.
    destruct (Forall2_lookup_l _ _ _ _ _ Hrows Hx) as (row & _ & Hrow).
    pose proof (heap_group_row h1 d1 addrs1 x row Hg1 Hrow) as Hstep.
    destruct (Report.group_row B pos_idx perf_idx d1 row) as [d'|e].
    + destruct Hstep as (h'' & addrs' & Hrun' & Hg').
      rewrite Hrun' in Hrun. injection Hrun as _ <-. eauto.
    + rewrite Hstep in Hrun. discriminate Hrun.
Qed.

End GroupingLoop.

(** ** The rows of [result] *)

Lemma heap_floats h xs i :
  Heap.each (λ _, Heap.float_value) i (VFloat <$> xs) h = (Heap.Returns xs, h).
Proof.
  revert i. induction xs as [|x xs IH]; intros i; csimpl; [done|].
  by rewrite heap_bind, heap_ret, heap_bind, IH.
Qed.

Section ResultRows.
Context (fsum : list PyFloat.float -> PyFloat.float).

Lemma heap_result_row h al k xs :
  h !! al = Some (OList (VFloat <$> xs)) →
  Heap.result_row fsum k (VRef al) h =
    match result_row fsum (k, xs) with
    | Ok row => (Heap.Returns (VRef (length h)), h ++ [OList (VStr <$> row)])
    | Raise e => (Heap.Fails (Heap.Exception e), h)
    end.
Proof.
  intros Hal. unfold Heap.result_row, result_row, average.
  rewrite heap_bind, (heap_items _ _ _ Hal), heap_bind, heap_floats, heap_bind.
  by destruct (length xs).
Qed.

Lemma grouping_entries h0 h ar ad vs d addrs :
  grouping h0 h ar ad vs d addrs → entries_of h (zip d.*1 (VRef <$> addrs)) d.
Proof.
  intros (_ & _ & _ & _ & _ & _ & _ & Hobj). unfold entries_of.
  induction Hobj as [|[k xs] al d addrs Hal _ IH]; csimpl; constructor; eauto.
Qed.

Lemma heap_result_rows hb es (d : dict) i h :
  entries_of hb es d → hb `prefix_of` h →
  match mapM_result (result_row fsum) d with
  | Ok rows =>
      ∃ refs h',
        Heap.each (λ _ e, Heap.result_row fsum e.1 e.2) i es h =
          (Heap.Returns refs, h') ∧
        h `prefix_of` h' ∧
        Forall2 (λ v row, Heap.read_row h' v = Some row) refs rows
  | Raise e =>
      ∃ h',
        Heap.each (λ _ e, Heap.result_row fsum e.1 e.2) i es h =
          (Heap.Fails (Heap.Exception e), h') ∧
        h `prefix_of` h'
  end.
Proof.
  intros Hes. revert i h. unfold entries_of in Hes.
  induction Hes as [|[k v] [k' xs] es d He _ IH]; intros i h Hpre.
  - simpl. by exists [], h.
  - simpl in He. destruct He as (<- & al & -> & Hal).
    rewrite each_cons, mapM_result_cons.
    pose proof (prefix_lookup_Some _ _ _ _ Hal Hpre) as Hal'.
    rewrite heap_bind. cbn [fst snd]. rewrite (heap_result_row h al k xs Hal').
    destruct (result_row fsum (k, xs)) as [row|e]; simpl; [|by exists h].
    specialize (IH (S i) (h ++ [OList (VStr <$> row)]) (prefix_snoc _ _ _ Hpre)).
    rewrite heap_bind.
    destruct (mapM_result (result_row fsum) d) as [rows|e]; simpl.
    + destruct IH as (refs & h' & -> & Hpre' & Hrefs).
      exists (VRef (length h) :: refs), h'. split; [done|].
      split; [etrans; [|exact Hpre']; by apply prefix_app_r|].
      constructor; [|done]. apply read_row_Some. exists (length h). split; [done|].
      eapply prefix_lookup_Some; [|exact Hpre']. by apply list_lookup_middle.
    + destruct IH as (h' & -> & Hpre'). exists h'. split; [done|].
      etrans; [|exact Hpre']. by apply prefix_app_r.
Qed.

(** [[... for pos, perf in perf_data.items()]] *)
Lemma heap_for_items h0 h ar ad vs d addrs :
  grouping h0 h ar ad vs d addrs →
  match mapM_result (result_row fsum) d with
  | Ok rows =>
      ∃ refs h',
        Heap.for_items (VRef ad) (Heap.result_row fsum) h = (Heap.Returns refs, h') ∧
        h `prefix_of` h' ∧
        Forall2 (λ v row, Heap.read_row h' v = Some row) refs rows
  | Raise e =>
      ∃ h',
        Heap.for_items (VRef ad) (Heap.result_row fsum) h =
          (Heap.Fails (Heap.Exception e), h') ∧
        h `prefix_of` h'
  end.
Proof.
  intros Hg. pose proof (grouping_entries _ _ _ _ _ _ _ Hg) as Hes.
  pose proof Hg as (_ & _ & _ & _ & Had & _).
  unfold Heap.for_items. rewrite heap_bind, (heap_entries _ _ _ Had).
  set (es := zip d.*1 (VRef <$> addrs)) in *.
  assert (Heap.for_each (length es) (Heap.dict_next (VRef ad))
            (λ _ e, Heap.result_row fsum e.1 e.2) 0 h =
          Heap.each (λ _ e, Heap.result_row fsum e.1 e.2) 0 es h)
    as ->; [|exact (heap_result_rows h es d 0%nat h Hes (reflexivity h))].
  apply (for_each_each (λ h', h `prefix_of` h') _ _ es); [| |done..].
  - intros h1 j Hpre. unfold Heap.dict_next.
    by rewrite heap_bind, (heap_entries _ _ _ (prefix_lookup_Some _ _ _ _ Had Hpre)).
  - intros h1 j [k v] y h' Hpre He Hrun.
    destruct (Forall2_lookup_l _ _ _ _ _ Hes He) as ([k' xs] & _ & _ & al & Hv & Hal).
    simpl in Hv. subst v. simpl in Hrun.
    rewrite (heap_result_row h1 al k xs (prefix_lookup_Some _ _ _ _ Hal Hpre)) in Hrun.
    destruct (result_row fsum (k, xs)); injection Hrun as _ <-;
      [by apply prefix_snoc|done].
Qed.

End ResultRows.

(** ** The sort *)

Section SortOnHeap.
Context (B : Builtins).

Lemma heap_sort_key h v (row : list string) :
  Heap.read_row h v = Some row →
  Heap.sort_key B v h =
    (match Report.sort_key B row with
     | Ok key => Heap.Returns key
     | Raise e => Heap.Fails (Heap.Exception e)
     end, h).
Proof.
  intros (a & -> & Ha)%read_row_Some.
  unfold Heap.sort_key, Report.sort_key, getitem, Report.float_of.
  rewrite heap_bind, (heap_list_getitem _ _ _ _ Ha), list_lookup_fmap.
  destruct (row !! 1%nat) as [cell|]; simpl; [|done].
  by destruct (py_float B cell).
Qed.

Lemma heap_sort_keys h refs (rows : list (list string)) i :
  Forall2 (λ v row, Heap.read_row h v = Some row) refs rows →
  Heap.each (λ _, Heap.sort_key B) i refs h =
    (match mapM_result (Report.sort_key B) rows with
     | Ok keys => Heap.Returns keys
     | Raise e => Heap.Fails (Heap.Exception e)
     end, h).
Proof.
  intros Hrows. revert i.
  induction Hrows as [|v row refs rows Hv _ IH]; intros i; [done|].
  rewrite each_cons, mapM_result_cons, heap_bind, (heap_sort_key _ _ _ Hv).
  destruct (Report.sort_key B row) as [key|e]; simpl; [|done].
  rewrite heap_bind, IH.
  by destruct (mapM_result (Report.sort_key B) rows).
Qed.

Lemma read_rows_fmap h refs (rows : list (list string)) :
  Forall2 (λ v row, Heap.read_row h v = Some row) refs rows →
  rows = (λ v, default [] (Heap.read_row h v)) <$> refs.
Proof.
  induction 1 as [|v row refs rows Hv _ IH]; [done|].
  csimpl. rewrite Hv. simpl. by f_equal.
Qed.

(** [result.sort(key=..., reverse=True)] orders the references as it
    orders the rows they refer to. *)
Lemma heap_list_sort h a refs (rows : list (list string)) :
  lawful B →
  h !! a = Some (OList refs) →
  Forall2 (λ v row, Heap.read_row h v = Some row) refs rows →
  match Report.sort_by_key B (Report.sort_key B) rows with
  | Ok sorted =>
      ∃ refs',
        Heap.list_sort B (VRef a) (Heap.sort_key B) h =
          (Heap.Returns tt, <[a := OList refs']> h) ∧
        Forall2 (λ v row, Heap.read_row (<[a := OList refs']> h) v = Some row)
          refs' sorted
  | Raise e =>
      Heap.list_sort B (VRef a) (Heap.sort_key B) h =
        (Heap.Fails (Heap.Exception e), h)
  end.
Proof.
  intros (_ & Hperm & _ & Hnat) Ha Hrows.
  unfold Heap.list_sort, Report.sort_by_key.
  rewrite heap_bind, (heap_items _ _ _ Ha), heap_bind, (heap_sort_keys _ _ _ _ Hrows).
  destruct (mapM_result (Report.sort_key B) rows) as [keys|e] eqn:Hkeys; simpl;
    [|done].
  eexists. split; [reflexivity|].
  set (f := λ v, default ([] : list string) (Heap.read_row h v)).
  assert (rows = f <$> refs) as -> by (by apply read_rows_fmap).
  change (map snd ?l) with (l.*2).
  rewrite <- (list_fmap_id keys) at 2. rewrite <- prod_map_zip, Hnat.
  rewrite <- list_fmap_compose.
  set (sorted := py_sort B (zip keys refs)).
  apply Forall2_fmap, Forall_Forall2_diag, Forall_forall.
  intros [key v] Hin. simpl.
  assert (v ∈ refs) as Hv.
  { subst sorted. rewrite Hperm in Hin. by apply elem_of_zip_r in Hin. }
  apply list_elem_of_lookup_1 in Hv as [j Hj].
  destruct (Forall2_lookup_l _ _ _ _ _ Hrows Hj) as (row & Hrow & Hread).
  assert (f v = row) as -> by (unfold f; by rewrite Hread).
  apply read_row_Some in Hread as (b & -> & Hb). apply read_row_Some.
  exists b. split; [done|]. rewrite list_lookup_insert_ne; [done|].
  intros <-. rewrite Ha in Hb. injection Hb as ->.
  apply list_lookup_fmap_Some in Hj as (? & ? & _). done.
Qed.

End SortOnHeap.

(** ** The numbered rows *)

Lemma heap_numbered_row h i a (row : list string) :
  h !! a = Some (OList (VStr <$> row)) →
  Heap.numbered_row i (VRef a) h =
    (Heap.Returns (VRef (length h)),
     h ++ [OList (VStr <$> str_of_nat (i + 1) :: row)]).
Proof.
  intros Ha. unfold Heap.numbered_row. by rewrite heap_bind, (heap_items _ _ _ Ha).
Qed.

Lemma heap_numbered_rows hb xs (rows : list (list string)) i h :
  Forall2 (λ v row, Heap.read_row hb v = Some row) xs rows → hb `prefix_of` h →
  ∃ refs h',
    Heap.each Heap.numbered_row i xs h = (Heap.Returns refs, h') ∧
    h `prefix_of` h' ∧
    Forall2 (λ v row, Heap.read_row h' v = Some row) refs
      (imap (λ j row, str_of_nat (i + j + 1) :: row) rows).
Proof.
  intros Hrows. revert i h.
  induction Hrows as [|v row xs rows Hv _ IH]; intros i h Hpre.
  - by exists [], h.
  - apply read_row_Some in Hv as (a & -> & Ha).
    pose proof (prefix_lookup_Some _ _ _ _ Ha Hpre) as Ha'.
    rewrite each_cons, heap_bind, (heap_numbered_row _ _ _ _ Ha'), heap_bind.
    destruct (IH (S i) _
                (prefix_snoc _ _ (OList (VStr <$> str_of_nat (i + 1) :: row)) Hpre))
      as (refs & h' & -> & Hpre' & Hrefs).
    exists (VRef (length h) :: refs), h'. split; [done|].
    split; [etrans; [|exact Hpre']; by apply prefix_app_r|].
    rewrite imap_cons. constructor.
    + apply read_row_Some. exists (length h). rewrite Nat.add_0_r. split; [done|].
      eapply prefix_lookup_Some; [|exact Hpre']. by apply list_lookup_middle.
    + erewrite imap_ext; [exact Hrefs|]. intros j r _. simpl. do 2 f_equal. lia.
Qed.

(** [[... for i, row in enumerate(result)]] *)
Lemma heap_for_numbered h a xs (rows : list (list string)) :
  h !! a = Some (OList xs) →
  Forall2 (λ v row, Heap.read_row h v = Some row) xs rows →
  ∃ refs h',
    Heap.for_list (VRef a) Heap.numbered_row h = (Heap.Returns refs, h') ∧
    h `prefix_of` h' ∧
    Forall2 (λ v row, Heap.read_row h' v = Some row) refs (number_rows rows).
Proof.
  intros Ha Hrows. unfold Heap.for_list, Heap.list_len.
  rewrite !heap_bind, (heap_items _ _ _ Ha). simpl.
  assert (Heap.for_each (length xs) (Heap.list_next (VRef a)) Heap.numbered_row 0 h =
          Heap.each Heap.numbered_row 0 xs h) as ->.
  { apply (for_each_each (λ h', h `prefix_of` h') _ _ xs); [| |done..].
    - intros h1 j Hpre. unfold Heap.list_next.
      by rewrite heap_bind, (heap_items _ _ _ (prefix_lookup_Some _ _ _ _ Ha Hpre)).
    - intros h1 j x y h' Hpre Hx Hrun.
      destruct (Forall2_lookup_l _ _ _ _ _ Hrows Hx) as (row & _ & Hrow).
      apply read_row_Some in Hrow as (b & -> & Hb).
      rewrite (heap_numbered_row _ _ _ _ (prefix_lookup_Some _ _ _ _ Hb Hpre)) in Hrun.
      injection Hrun as _ <-. by apply prefix_snoc. }
  exact (heap_numbered_rows h xs rows 0%nat h Hrows (reflexivity h)).
Qed.

(** ** The method on the heap and the method on tables *)

Lemma value_index_from_str x (hd : list string) i :
  Heap.value_index_from x (VStr <$> hd) i = index_from x hd i.
Proof.
  revert i. induction hd as [|y hd IH]; intros i; csimpl; [done|].
  by rewrite IH.
Qed.

Lemma heap_list_index h a (hd : list string) x :
  h !! a = Some (OList (VStr <$> hd)) →
  Heap.list_index (VRef a) x h =
    (match index x hd with
     | Ok i => Heap.Returns i
     | Raise e => Heap.Fails (Heap.Exception e)
     end, h).
Proof.
  intros Ha. unfold Heap.list_index, index.
  rewrite heap_bind, (heap_items _ _ _ Ha), value_index_from_str.
  by destruct (index_from x hd 0).
Qed.

Lemma heap_columns h a (hd : list string) :
  h !! a = Some (OList (VStr <$> hd)) →
  Heap.missing_column
    (pos_idx ← Heap.list_index (VRef a) "position";
     perf_idx ← Heap.list_index (VRef a) "performance";
     mret (pos_idx, perf_idx)) h =
    (match
       match (pos_idx ← index "position" hd;
              perf_idx ← index "performance" hd;
              Ok (pos_idx, perf_idx)) with
       | Raise (ValueError arg) => Raise (ValueError ("Отсутствует колонка: " ++ arg))
       | r => r
       end
     with
     | Ok idx => Heap.Returns idx
     | Raise e => Heap.Fails (Heap.Exception e)
     end, h).
Proof.
  intros Ha. unfold Heap.missing_column.
  rewrite heap_bind, (heap_list_index _ _ _ _ Ha). unfold index at 1 3.
  destruct (index_from "position" hd 0); [|done].
  rewrite heap_bind, (heap_list_index _ _ _ _ Ha). unfold index.
  by destruct (index_from "performance" hd 0).
Qed.

Section Refinement.
Context (B : Builtins) (fsum : list PyFloat.float -> PyFloat.float).
Hypothesis HB : lawful B.

(** The method after the columns are found. *)
Lemma heap_performance_indexed h0 ar vrows (rows : list Row) pos_idx perf_idx :
  length h0 = ar →
  Forall2 (λ v row, Heap.read_row h0 v = Some row) vrows rows →
  match
    (perf_data ← foldM_result (Report.group_row B pos_idx perf_idx) [] rows;
     result ← mapM_result (result_row fsum) perf_data;
     result ← Report.sort_by_key B (Report.sort_key B) result;
     Ok (report_header, number_rows result))
  with
  | Ok report =>
      ∃ out h',
        (perf_data ← Heap.alloc (ODict []);
         _ ← Heap.for_list (VRef ar)
               (λ _ row, Heap.group_row B pos_idx perf_idx perf_data row);
         result ← Heap.for_items perf_data (Heap.result_row fsum);
         result ← Heap.alloc (OList result);
         _ ← Heap.list_sort B result (Heap.sort_key B);
         numbered ← Heap.for_list result Heap.numbered_row;
         result ← Heap.alloc (OList numbered);
         header ← Heap.alloc (OList (VStr <$> ["№"; "position"; "performance"]%string));
         mret (header, result)) (h0 ++ [OList vrows]) = (Heap.Returns out, h') ∧
        h0 `prefix_of` h' ∧ Heap.read_report h' out = Some report
  | Raise e =>
      ∃ h',
        (perf_data ← Heap.alloc (ODict []);
         _ ← Heap.for_list (VRef ar)
               (λ _ row, Heap.group_row B pos_idx perf_idx perf_data row);
         result ← Heap.for_items perf_data (Heap.result_row fsum);
         result ← Heap.alloc (OList result);
         _ ← Heap.list_sort B result (Heap.sort_key B);
         numbered ← Heap.for_list result Heap.numbered_row;
         result ← Heap.alloc (OList numbered);
         header ← Heap.alloc (OList (VStr <$> ["№"; "position"; "performance"]%string));
         mret (header, result)) (h0 ++ [OList vrows]) =
          (Heap.Fails (Heap.Exception e), h') ∧
        h0 `prefix_of` h'
  end.
Proof.
  intros Har Hrows.
  set (h1 := h0 ++ [OList vrows]).
  set (h2 := h1 ++ [ODict []]).
  assert (grouping h0 h2 ar (S ar) vrows [] []) as Hg.
  { subst h1 h2 ar. split; [by apply prefix_snoc, prefix_app_r|].
    split; [done|]. split; [lia|].
    split; [rewrite lookup_app_l by (rewrite length_app; simpl; lia);
            by apply list_lookup_middle|].
    split; [apply list_lookup_middle; rewrite length_app; simpl; lia|].
    split; [constructor|]. split; constructor. }
  rewrite heap_bind.
  change (Heap.alloc (ODict []) h1)
    with (Heap.Returns (VRef (length h1)), h2).
  assert (length h1 = S ar) as -> by (subst h1 ar; rewrite length_app; simpl; lia).
  rewrite heap_bind.
  pose proof (heap_for_rows B h0 ar (S ar) vrows pos_idx perf_idx rows h2 Hg Hrows)
    as Hloop.
  destruct (foldM_result (Report.group_row B pos_idx perf_idx) [] rows) as [d|e];
    simpl; [|destruct Hloop as (h' & -> & Hpre); by exists h'].
  destruct Hloop as (ys & h3 & addrs & -> & Hg3).
  pose proof Hg3 as (Hpre3 & _).
  rewrite heap_bind.
  pose proof (heap_for_items fsum h0 h3 ar (S ar) vrows d addrs Hg3) as Hitems.
  destruct (mapM_result (result_row fsum) d) as [result|e]; simpl;
    [|destruct Hitems as (h' & -> & Hpre); exists h'; split; [done|by etrans]].
  destruct Hitems as (refs & h4 & -> & Hpre4 & Hrefs).
  rewrite heap_bind.
  set (h5 := h4 ++ [OList refs]).
  change (Heap.alloc (OList refs) h4) with (Heap.Returns (VRef (length h4)), h5).
  cbv beta iota.
  assert (h5 !! length h4 = Some (OList refs)) as Hres
    by (by apply list_lookup_middle).
  assert (h0 `prefix_of` h5) as Hpre5
    by (apply prefix_snoc; etrans; [exact Hpre3|exact Hpre4]).
  rewrite heap_bind.
  pose proof (heap_list_sort B h5 (length h4) refs result HB Hres
                (read_rows_prefix h4 h5 _ _ (prefix_app_r _ _ _ (reflexivity _)) Hrefs))
    as Hsort.
  destruct (Report.sort_by_key B (Report.sort_key B) result) as [sorted|e]; simpl;
    [|rewrite Hsort; by exists h5].
  destruct Hsort as (refs' & -> & Hsorted).
  set (h6 := <[length h4 := OList refs']> h5) in *.
  assert (h0 `prefix_of` h6) as Hpre6.
  { apply prefix_insert; [done|]. apply prefix_length.
    etrans; [exact Hpre3|exact Hpre4]. }
  assert (h6 !! length h4 = Some (OList refs')) as Hres'.
  { apply list_lookup_insert_eq. subst h5. rewrite length_app. simpl. lia. }
  rewrite heap_bind.
  destruct (heap_for_numbered h6 (length h4) refs' sorted Hres' Hsorted)
    as (numbered & h7 & -> & Hpre7 & Hnumbered).
  rewrite heap_bind.
  set (h8 := h7 ++ [OList numbered]).
  exists (VRef (length h8), VRef (length h7)), (h8 ++ [OList (VStr <$> report_header)]).
  split; [reflexivity|].
  split; [apply prefix_snoc, prefix_snoc; etrans; [exact Hpre6|exact Hpre7]|].
  assert (Heap.read_row (h8 ++ [OList (VStr <$> report_header)]) (VRef (length h8)) =
          Some report_header) as Hheader.
  { apply read_row_Some. eexists. split; [done|]. by apply list_lookup_middle. }
  assert (Heap.read_table (h8 ++ [OList (VStr <$> report_header)]) (VRef (length h7)) =
          Some (number_rows sorted)) as Htable.
  { apply read_table_Some. exists (length h7), numbered. split; [done|]. split.
    - rewrite lookup_app_l by (subst h8; rewrite length_app; simpl; lia).
      by apply list_lookup_middle.
    - eapply read_rows_prefix; [|exact Hnumbered].
      subst h8. rewrite <- app_assoc. by apply prefix_app_r. }
  unfold Heap.read_report. cbn [fst snd]. rewrite Hheader.
  cbn [mbind option_bind]. by rewrite Htable.
Qed.

(** [Report.performance] on the heap returns a reference to the report
    [Report.performance] on tables returns, or raises what it raises, and
    leaves every object that was there as it was. *)
Lemma heap_performance h data t :
  Heap.read_table h data = Some t →
  match Report.performance B fsum t with
  | Ok report =>
      ∃ out h',
        Heap.performance B fsum data h = (Heap.Returns out, h') ∧
        h `prefix_of` h' ∧ Heap.read_report h' out = Some report
  | Raise e =>
      ∃ h',
        Heap.performance B fsum data h = (Heap.Fails (Heap.Exception e), h') ∧
        h `prefix_of` h'
  end.
Proof.
  intros (a & xs & -> & Ha & Hrows)%read_table_Some.
  unfold Heap.performance. rewrite heap_bind, (heap_list_getitem _ _ _ _ Ha).
  destruct Hrows as [|vh hd vrows rows Hhd Hrows]; [by exists h|].
  cbv beta in Hhd. apply read_row_Some in Hhd as (ah & -> & Hah).
  cbn [lookup list_lookup].
  unfold Heap.list_slice. rewrite !heap_bind, (heap_items _ _ _ Ha).
  change (Heap.alloc (OList (drop 1 (VRef ah :: vrows))) h)
    with (Heap.Returns (VRef (length h)), h ++ [OList vrows]).
  cbv beta iota.
  assert ((h ++ [OList vrows]) !! ah = Some (OList (VStr <$> hd))) as Hah'.
  { rewrite lookup_app_l; [done|by eapply lookup_lt_Some]. }
  rewrite heap_bind, (heap_columns _ _ _ Hah').
  unfold Report.performance, getitem. cbn [lookup list_lookup].
  match goal with
  | |- match (Ok hd ≫= _) with _ => _ end => cbn [mbind result_bind]
  end.
  match goal with
  | |- match (?c ≫= _) with _ => _ end => destruct c as [[pos_idx perf_idx]|e]
  end.
  - exact (heap_performance_indexed h (length h) vrows rows pos_idx perf_idx
             (eq_refl _) Hrows).
  - exists (h ++ [OList vrows]). split; [done|]. by apply prefix_app_r.
Qed.

End Refinement.

(** C8. A call of the performance report that returns leaves the table,
    and every object that was there, as it was; a second call on the same
    table then returns too, and the two calls return the same report: the
    one the method computes from the table as a value. The first result is
    not touched by the second call. *)
Theorem performance_twice B fsum h data t out1 h1 :
  lawful B →
  Heap.read_table h data = Some t →
  Heap.performance B fsum data h = (Heap.Returns out1, h1) →
  ∃ report out2 h2,
    Heap.performance B fsum data h1 = (Heap.Returns out2, h2) ∧
    Heap.read_report h1 out1 = Some report ∧
    Heap.read_report h2 out2 = Some report ∧
    Heap.read_report h2 out1 = Some report ∧
    Report.performance B fsum t = Ok report ∧
    h `prefix_of` h1 ∧ h1 `prefix_of` h2 ∧
    Heap.read_table h1 data = Some t ∧ Heap.read_table h2 data = Some t.
Proof.
  intros HB Ht Hrun1.
  pose proof (heap_performance B fsum HB h data t Ht) as Hfirst.
  destruct (Report.performance B fsum t) as [report|e] eqn:Hreport.
  2:{ destruct Hfirst as (h' & Hfails & _). rewrite Hfails in Hrun1.
      discriminate Hrun1. }
  destruct Hfirst as (out & h' & Hrun & Hpre1 & Hout1).
  rewrite Hrun in Hrun1. injection Hrun1 as -> ->.
  pose proof (read_table_prefix _ _ _ _ Hpre1 Ht) as Ht1.
  pose proof (heap_performance B fsum HB h1 data t Ht1) as Hsecond.
  rewrite Hreport in Hsecond. destruct Hsecond as (out2 & h2 & Hrun2 & Hpre2 & Hout2).
  exists report, out2, h2. split; [done|]. split; [done|]. split; [done|].
  split; [by eapply read_report_prefix|]. split; [done|]. split; [done|].
  split; [done|]. split; [done|]. by eapply read_table_prefix.
Qed.

Lemma performance_twice_witness :
  lawful ascii_builtins ∧
  Heap.read_table sample_heap sample_ref = Some sample_data ∧
  ∃ report out2 h2,
    Heap.performance ascii_builtins PyFloat.sum_plain sample_ref
      (Heap.performance ascii_builtins PyFloat.sum_plain sample_ref sample_heap).2 =
      (Heap.Returns out2, h2) ∧
    Heap.read_report
      (Heap.performance ascii_builtins PyFloat.sum_plain sample_ref sample_heap).2
      (VRef 16, VRef 15) = Some report ∧
    Heap.read_report h2 out2 = Some report ∧
    Heap.read_report h2 (VRef 16, VRef 15) = Some report ∧
    Report.performance ascii_builtins PyFloat.sum_plain sample_data = Ok report ∧
    sample_heap `prefix_of`
      (Heap.performance ascii_builtins PyFloat.sum_plain sample_ref sample_heap).2 ∧
    (Heap.performance ascii_builtins PyFloat.sum_plain sample_ref sample_heap).2
      `prefix_of` h2 ∧
    Heap.read_table
      (Heap.performance ascii_builtins PyFloat.sum_plain sample_ref sample_heap).2
      sample_ref = Some sample_data ∧
    Heap.read_table h2 sample_ref = Some sample_data.
Proof.
  split; [exact ascii_lawful|]. split; [vm_compute; reflexivity|].
  apply (performance_twice ascii_builtins PyFloat.sum_plain sample_heap sample_ref
           sample_data (VRef 16, VRef 15)
           (Heap.performance ascii_builtins PyFloat.sum_plain sample_ref sample_heap).2);
    [exact ascii_lawful|vm_compute; reflexivity|vm_compute; reflexivity].
Defined.

(** A table changed in place between two calls is another table: the
    second call reads the row that was appended. *)
Example performance_after_append :
  Heap.read_table sample_heap_grown sample_ref =
    Some (sample_data ++ [["Eve"; "Frontend"; "5.0"]%string]) ∧
  ∃ out h,
    Heap.performance ascii_builtins PyFloat.sum_plain sample_ref sample_heap_grown =
      (Heap.Returns out, h) ∧
    Heap.read_report h out =
      Some (report_header,
            [["1"; "Backend"; "4.90"]; ["2"; "Frontend"; "4.67"]]%string).
Proof. split; [vm_compute; reflexivity|]. eexists _, _. vm_compute. done. Qed.
